(** * Pathfinder mesh debugger: the annotated 2D view of [mesh-debugger.ts]

    A shallow embedding of [MeshDebuggerView] (overlay toggles, key handling,
    [redraw]) and of the free drawing functions of
    [demo/client/src/mesh-debugger.ts].

    The 2D canvas context is an object of the platform: what the code does to
    it is the sequence of method calls and property writes it performs, so
    every drawing function is embedded as the list of [CanvasOp]s it issues,
    in program order.  Calls to [setDirty] of the base view are recorded the
    same way, as [ViewCall]s.

    JavaScript numbers are kept behind the interface [JSNumber]: the drawing
    code is embedded once, for any arithmetic.  What depends on the values
    that the arithmetic yields, and every sample input, is settled on
    [IEEE.numbers], the binary64 arithmetic of the language with its
    binary32 stores. *)

From Stdlib Require Import List String Bool Arith ZArith Lia.
From Stdlib Require Floats.PrimFloat Floats.SpecFloat Floats.FloatOps.
Import ListNotations.

Set Implicit Arguments.

(** ** Numbers *)

(** The operations of JavaScript numbers that the file uses. [lit] is an
    integral numeric literal, [fround] the rounding of a store into a
    [Float32Array] (gl-matrix vectors are [Float32Array]s). *)
Class JSNumber (F : Type) : Type := {
  lit : Z -> F;
  NaN : F;
  num_add : F -> F -> F;
  num_sub : F -> F -> F;
  num_mul : F -> F -> F;
  num_div : F -> F -> F;
  num_neg : F -> F;
  Math_cos : F -> F;
  Math_sin : F -> F;
  Math_PI : F;
  fround : F -> F
}.

Declare Scope js_scope.
Delimit Scope js_scope with js.
Infix "+" := num_add : js_scope.
Infix "-" := num_sub : js_scope.
Infix "*" := num_mul : js_scope.
Infix "/" := num_div : js_scope.
Notation "- x" := (num_neg x) : js_scope.


(** The numbers of the language: IEEE 754 binary64, with the operations of
    the kernel's primitive floats.  A numeric literal is the double of its
    value; a store into a [Float32Array] rounds to binary32, to nearest and
    ties to even, overflowing to an infinity; a quotient by zero is an
    infinity or NaN.  [Math.PI] is the double 3.141592653589793.
    [Math.cos] and [Math.sin] are left to the engine by the language and
    are parameters. *)
Module IEEE.

Import PrimFloat SpecFloat FloatOps.

Definition literal (z : Z) : float :=
  match z with
  | Z0 => zero
  | Zpos p => SF2Prim (binary_round 53 1024 false p 0)
  | Zneg p => SF2Prim (binary_round 53 1024 true p 0)
  end.

Definition fround32 (x : float) : float :=
  match Prim2SF x with
  | S754_finite s m e => SF2Prim (binary_round 24 128 s m e)
  | _ => x
  end.

Definition numbers (cos sin : float -> float) : JSNumber float := {|
  lit := literal;
  NaN := nan;
  num_add := add;
  num_sub := sub;
  num_mul := mul;
  num_div := div;
  num_neg := opp;
  Math_cos := cos;
  Math_sin := sin;
  Math_PI := 0x1.921fb54442d18p+1%float;
  fround := fround32
|}.

(** The one argument at which the program calls [Math.cos] and [Math.sin]:
    [Math.PI * 5.0 / 6.0], the double 2.6179938779914944; and the doubles
    nearest to the cosine and to the sine of that double,
    -0.8660254037844387 and 0.49999999999999994. *)
Definition arrowhead_angle : float := 0x1.4f1a6c638d03fp+1%float.
Definition cos_arrowhead_angle : float := (-0x1.bb67ae8584cabp-1)%float.
Definition sin_arrowhead_angle : float := 0x1.fffffffffffffp-2%float.

(** A [Math.cos] and a [Math.sin] that round to nearest at the arrowhead
    angle; they are tabulated at that argument only (NaN stands for the
    values that are not tabulated). *)
Definition table_cos (x : float) : float :=
  if eqb x arrowhead_angle then cos_arrowhead_angle else nan.

Definition table_sin (x : float) : float :=
  if eqb x arrowhead_angle then sin_arrowhead_angle else nan.

End IEEE.

(** The arithmetic of the sample inputs: binary64 with the tabulated
    [Math.cos] and [Math.sin]. *)
#[export] Instance float_JSNumber : JSNumber PrimFloat.float :=
  IEEE.numbers IEEE.table_cos IEEE.table_sin.

(** ** Styles and constants (lines 33-63 of the source) *)

Definition POINT_LABEL_FONT : string := "sans-serif".

Definition SEGMENT_POINT_FILL_STYLE : string := "rgb(0, 0, 128)".
Definition LIGHT_STROKE_STYLE : string := "rgb(192, 192, 192)".
Definition LINE_STROKE_STYLE : string := "rgb(0, 128, 0)".
Definition CURVE_STROKE_STYLE : string := "rgb(128, 0, 0)".
Definition SEGMENT_LINE_STROKE_STYLE : string := "rgb(128, 192, 128)".
Definition SEGMENT_CONTROL_POINT_FILL_STYLE : string := "rgb(255, 255, 255)".
Definition SEGMENT_CONTROL_POINT_STROKE_STYLE : string := "rgb(0, 0, 128)".
Definition SEGMENT_CONTROL_POINT_HULL_STROKE_STYLE : string :=
  "rgba(128, 128, 128, 0.5)".

Inductive NormalType : Type := edge | bVertex.

Definition NORMAL_STROKE_STYLES (t : NormalType) : string :=
  match t with
  | bVertex => "#e6aa00"
  | edge => "#cc5500"
  end.

(** ** Key events and the calls made on the base view *)

Record KeyboardEvent : Type := { key : string }.

(** [setDirty] belongs to [PathfinderView], the render scheduler; a call to
    it is the redraw request. *)
Inductive ViewCall : Type := SetDirty.

Section Debugger.

Context (F : Type) {JSN : JSNumber F}.

Local Open Scope js_scope.

Definition POINT_RADIUS : F := lit 2.
Definition SEGMENT_POINT_RADIUS : F := lit 3.
Definition SEGMENT_STROKE_WIDTH : F := lit 1.
Definition SEGMENT_CONTROL_POINT_STROKE_WIDTH : F := lit 1.

Definition NORMAL_LENGTHS (t : NormalType) : F :=
  match t with
  | bVertex => lit 10
  | edge => lit 14
  end.

Definition NORMAL_ARROWHEAD_LENGTH : F := lit 4.
Definition NORMAL_ARROWHEAD_ANGLE : F := Math_PI * lit 5 / lit 6.

(** ** Vectors and typed arrays *)

(** A [glmatrix.vec2]: a [Float32Array] of two elements, read as [v[0]] and
    [v[1]]. *)
Record vec2 : Type := mkvec2 { at0 : F; at1 : F }.

(** A [Float32Array] over a mesh buffer.  A read past the end is
    [undefined] ([None]); so is a read at an index that is itself
    [undefined]. *)
Definition Float32Array : Type := list F.

Definition elem (a : Float32Array) (i : option nat) : option F :=
  match i with
  | Some n => nth_error a n
  | None => None
  end.

(** Storing a value into a [Float32Array]: [undefined] becomes NaN, a number
    is rounded to single precision. *)
Definition store (v : option F) : F :=
  match v with
  | Some x => fround x
  | None => NaN
  end.

(** [glmatrix.vec2.clone([a, b])]. *)
Definition vec2_clone (a b : option F) : vec2 :=
  {| at0 := store a; at1 := store b |}.

(** ** The view and what it reads *)

(** The fields of [PathfinderMeshData] that the debugger reads; each buffer is
    seen through the [Float32Array] that [redraw] lays over it. *)
Record PathfinderMeshData : Type := {
  bQuadVertexPositions : Float32Array;
  bQuadVertexPositionCount : nat;
  stencilSegments : Float32Array;
  stencilNormals : Float32Array;
  stencilSegmentCount : nat
}.

Record OrthographicCamera : Type := {
  translation : vec2;
  scale : F
}.

Record HTMLCanvasElement : Type := {
  width : F;
  height : F
}.

Record Window : Type := { devicePixelRatio : F }.

Record MeshDebuggerAppController : Type := {
  meshes : option PathfinderMeshData
}.

Record MeshDebuggerView : Type := {
  camera : OrthographicCamera;
  appController : MeshDebuggerAppController;
  canvas : HTMLCanvasElement;
  drawControl : bool;
  drawNormals : bool;
  drawVertices : bool;
  drawSegments : bool
}.

(** The field initialisers of the class (lines 229-232). *)
Definition initial_view (cam : OrthographicCamera)
    (app : MeshDebuggerAppController) (cv : HTMLCanvasElement)
  : MeshDebuggerView :=
  {| camera := cam; appController := app; canvas := cv;
     drawControl := true; drawNormals := true; drawVertices := true;
     drawSegments := false |}.

Definition set_drawControl (this : MeshDebuggerView) (b : bool) :=
  {| camera := camera this; appController := appController this;
     canvas := canvas this;
     drawControl := b; drawNormals := drawNormals this;
     drawVertices := drawVertices this; drawSegments := drawSegments this |}.

Definition set_drawNormals (this : MeshDebuggerView) (b : bool) :=
  {| camera := camera this; appController := appController this;
     canvas := canvas this;
     drawControl := drawControl this; drawNormals := b;
     drawVertices := drawVertices this; drawSegments := drawSegments this |}.

Definition set_drawVertices (this : MeshDebuggerView) (b : bool) :=
  {| camera := camera this; appController := appController this;
     canvas := canvas this;
     drawControl := drawControl this; drawNormals := drawNormals this;
     drawVertices := b; drawSegments := drawSegments this |}.

Definition set_drawSegments (this : MeshDebuggerView) (b : bool) :=
  {| camera := camera this; appController := appController this;
     canvas := canvas this;
     drawControl := drawControl this; drawNormals := drawNormals this;
     drawVertices := drawVertices this; drawSegments := b |}.

(** ** [MeshDebuggerView.onKeyPress] (lines 356-370)

    The handler returns the view after the event and the calls it made on
    the base view. *)
Definition mapped_key (k : string) : bool :=
  ((k =? "c") || (k =? "n") || (k =? "v") || (k =? "r"))%string.

Definition onKeyPress (this : MeshDebuggerView) (event : KeyboardEvent)
  : MeshDebuggerView * list ViewCall :=
  let this' :=
    if (key event =? "c")%string then
      set_drawControl this (negb (drawControl this))
    else if (key event =? "n")%string then
      set_drawNormals this (negb (drawNormals this))
    else if (key event =? "v")%string then
      set_drawVertices this (negb (drawVertices this))
    else if (key event =? "r")%string then
      (* Reset *)
      set_drawVertices
        (set_drawNormals (set_drawControl this true) true) true
    else this in
  (this', [SetDirty]).

(** The view after the key [k] was pressed. *)
Definition press (this : MeshDebuggerView) (k : string) : MeshDebuggerView :=
  fst (onKeyPress this {| key := k |}).

(** ** The drawing surface

    The methods and properties of [CanvasRenderingContext2D] that the file
    uses; a property write is an operation like a call. *)
Inductive CanvasOp : Type :=
| ClearRect (x y w h : F)
| Save
| Restore
| Translate (x y : F)
| Scale (x y : F)
| SetFont (font : string)
| SetLineWidth (w : F)
| SetStrokeStyle (style : string)
| SetFillStyle (style : string)
| SetLineDash (segments : list F)
| BeginPath
| MoveTo (x y : F)
| LineTo (x y : F)
| QuadraticCurveTo (cpx cpy x y : F)
| Arc (x y radius startAngle endAngle : F)
| Stroke
| Fill.

(** What a drawing function does to the context: the operations it issues,
    first to last. *)
Definition Draw : Type := list CanvasOp.

(** ** [getPosition] (lines 373-379) *)
Definition getPosition (positions : Float32Array)
    (bQuadIndex vertexIndex : nat) : vec2 :=
  vec2_clone
    (elem positions (Some ((bQuadIndex * 6 + vertexIndex) * 2 + 0)%nat))
    (elem positions (Some ((bQuadIndex * 6 + vertexIndex) * 2 + 1)%nat)).

(** ** [drawVertexIfNecessary] (lines 482-489) *)
Definition drawVertexIfNecessary (position : vec2) (invScaleFactor : F)
  : Draw :=
  [ BeginPath;
    MoveTo (at0 position) (- at1 position);
    Arc (at0 position) (- at1 position) (POINT_RADIUS * invScaleFactor)
        (lit 0) (lit 2 * Math_PI);
    Fill ].

(** ** [drawSegmentVertex] (lines 491-505) *)
Definition drawSegmentVertex (position : vec2) (invScaleFactor : F) : Draw :=
  [ Save;
    SetFillStyle SEGMENT_POINT_FILL_STYLE;
    SetLineWidth (invScaleFactor * SEGMENT_STROKE_WIDTH);
    BeginPath;
    Arc (at0 position) (- at1 position)
        (SEGMENT_POINT_RADIUS * invScaleFactor) (lit 0) (lit 2 * Math_PI);
    Fill;
    Restore ].

(** ** [drawSegmentControlPoint] (lines 507-523) *)
Definition drawSegmentControlPoint (position : vec2) (invScaleFactor : F)
  : Draw :=
  [ Save;
    SetStrokeStyle SEGMENT_CONTROL_POINT_STROKE_STYLE;
    SetFillStyle SEGMENT_CONTROL_POINT_FILL_STYLE;
    SetLineWidth (invScaleFactor * SEGMENT_CONTROL_POINT_STROKE_WIDTH);
    BeginPath;
    Arc (at0 position) (- at1 position)
        (SEGMENT_POINT_RADIUS * invScaleFactor) (lit 0) (lit 2 * Math_PI);
    Fill;
    Stroke;
    Restore ].

(** ** [drawNormal] (lines 525-557)

    [normalEndpoint] is the local [endpoint]; [normalWing1] and
    [normalWing2] are the arguments of the two [lineTo] calls that draw the
    arrowhead. *)
Definition normalEndpoint (position normalVector : vec2)
    (invScaleFactor : F) (normalType : NormalType) : vec2 :=
  let length := invScaleFactor * NORMAL_LENGTHS normalType in
  vec2_clone
    (Some (at0 position + length * at0 normalVector))
    (Some ((- at1 position) + length * (- at1 normalVector))).

Definition normalWing1 (endpoint normalVector : vec2) (invScaleFactor : F)
  : F * F :=
  let arrowheadLength := invScaleFactor * NORMAL_ARROWHEAD_LENGTH in
  (at0 endpoint + arrowheadLength *
     (Math_cos NORMAL_ARROWHEAD_ANGLE * at0 normalVector +
      Math_sin NORMAL_ARROWHEAD_ANGLE * at1 normalVector),
   at1 endpoint + arrowheadLength *
     (Math_sin NORMAL_ARROWHEAD_ANGLE * at0 normalVector -
      Math_cos NORMAL_ARROWHEAD_ANGLE * at1 normalVector)).

Definition normalWing2 (endpoint normalVector : vec2) (invScaleFactor : F)
  : F * F :=
  let arrowheadLength := invScaleFactor * NORMAL_ARROWHEAD_LENGTH in
  (at0 endpoint + arrowheadLength *
     (Math_cos NORMAL_ARROWHEAD_ANGLE * at0 normalVector -
      Math_sin NORMAL_ARROWHEAD_ANGLE * at1 normalVector),
   at1 endpoint - arrowheadLength *
     (Math_cos NORMAL_ARROWHEAD_ANGLE * at1 normalVector +
      Math_sin NORMAL_ARROWHEAD_ANGLE * at0 normalVector)).

Definition drawNormal (position normalVector : vec2) (invScaleFactor : F)
    (normalType : NormalType) : Draw :=
  let endpoint :=
    normalEndpoint position normalVector invScaleFactor normalType in
  let wing1 := normalWing1 endpoint normalVector invScaleFactor in
  let wing2 := normalWing2 endpoint normalVector invScaleFactor in
  [ Save;
    SetStrokeStyle (NORMAL_STROKE_STYLES normalType);
    BeginPath;
    MoveTo (at0 position) (- at1 position);
    LineTo (at0 endpoint) (at1 endpoint);
    LineTo (fst wing1) (snd wing1);
    Stroke;
    BeginPath;
    MoveTo (at0 endpoint) (at1 endpoint);
    LineTo (fst wing2) (snd wing2);
    Stroke;
    Restore ].

(** ** [drawSegmentVertices] (lines 400-480) *)

(** The point of a segment record at slot [offset]: the two floats at
    [startOffset + offset * 2 + 0] and [... + 1].  [offset] is [None] when
    it was read past the end of [endpointOffsets]; the index is then
    [undefined] too. *)
Definition segmentPoint (buffer : Float32Array) (startOffset : nat)
    (offset : option nat) : vec2 :=
  vec2_clone
    (elem buffer (option_map (fun o => (startOffset + o * 2 + 0)%nat) offset))
    (elem buffer (option_map (fun o => (startOffset + o * 2 + 1)%nat) offset)).

(** One turn of the loop over the segments. *)
Definition drawSegmentVertices_body (segments normals : Float32Array)
    (endpointOffsets : list nat) (controlPointOffset : option nat)
    (segmentSize : nat) (invScaleFactor : F)
    (drawControl drawNormals drawSegments : bool) (segmentIndex : nat)
  : Draw :=
  let positionStartOffset := (segmentSize * 2 * segmentIndex)%nat in
  let normalStartOffset := (segmentSize * 2 * segmentIndex)%nat in
  let position0 :=
    segmentPoint segments positionStartOffset (nth_error endpointOffsets 0) in
  let position1 :=
    segmentPoint segments positionStartOffset (nth_error endpointOffsets 1) in
  let controlPoint : option vec2 :=
    match controlPointOffset with
    | Some o => Some (segmentPoint segments positionStartOffset (Some o))
    | None => None
    end in
  let normal0 :=
    segmentPoint normals normalStartOffset (nth_error endpointOffsets 0) in
  let normal1 :=
    segmentPoint normals normalStartOffset (nth_error endpointOffsets 1) in
  let normalControlPoint : option vec2 :=
    match controlPointOffset with
    | Some o => Some (segmentPoint normals normalStartOffset (Some o))
    | None => None
    end in
  (if drawNormals then
     drawNormal position0 normal0 invScaleFactor edge ++
     drawNormal position1 normal1 invScaleFactor edge ++
     match drawControl, controlPoint, normalControlPoint with
     | true, Some cp, Some ncp => drawNormal cp ncp invScaleFactor edge
     | _, _, _ => []
     end
   else []) ++
  drawSegmentVertex position0 invScaleFactor ++
  drawSegmentVertex position1 invScaleFactor ++
  match drawControl, controlPoint with
  | true, Some cp =>
      [ Save;
        SetStrokeStyle SEGMENT_CONTROL_POINT_HULL_STROKE_STYLE;
        SetLineDash [lit 2 * invScaleFactor; lit 2 * invScaleFactor];
        BeginPath;
        MoveTo (at0 position0) (- at1 position0);
        LineTo (at0 cp) (- at1 cp);
        LineTo (at0 position1) (- at1 position1);
        Stroke;
        Restore ] ++
      drawSegmentControlPoint cp invScaleFactor
  | _, _ => []
  end ++
  (if drawSegments then
     [ Save;
       SetStrokeStyle SEGMENT_LINE_STROKE_STYLE;
       BeginPath;
       MoveTo (at0 position0) (- at1 position0);
       LineTo (at0 position1) (- at1 position1);
       Stroke;
       Restore ]
   else []).

Definition drawSegmentVertices (segments normals : Float32Array)
    (segmentCount : nat) (endpointOffsets : list nat)
    (controlPointOffset : option nat) (segmentSize : nat)
    (invScaleFactor : F) (drawControl drawNormals drawSegments : bool)
  : Draw :=
  flat_map
    (drawSegmentVertices_body segments normals endpointOffsets
       controlPointOffset segmentSize invScaleFactor
       drawControl drawNormals drawSegments)
    (seq 0 segmentCount).

(** ** [MeshDebuggerView.redraw] (lines 252-354) *)

(** Modelled from the spec: [PathfinderView.redraw], the method of the base
    class that [redraw] calls first through [super]; [view.ts] is not among
    the sources.  The view lifecycle is the collaborator that schedules
    redraws from the dirty flag, and the debugger "is the sole writer to this
    surface during a redraw": the base method issues nothing on the 2D
    context. *)
Definition PathfinderView_redraw : Draw := [].

(** One turn of the loop over the B-quads (lines 281-337).  The locals
    [bQuadStartOffset] and [normals] are computed and never read; they are
    left out.  The two tests [... != null] are made on the vectors that
    [getPosition] returned. *)
Definition redraw_bQuad (bQuadVertexPositions : Float32Array)
    (invScaleFactor : F) (drawVertices : bool) (bQuadIndex : nat) : Draw :=
  let upperLeftPosition := getPosition bQuadVertexPositions bQuadIndex 0 in
  let upperControlPointPosition :=
    getPosition bQuadVertexPositions bQuadIndex 1 in
  let upperRightPosition := getPosition bQuadVertexPositions bQuadIndex 2 in
  let lowerRightPosition := getPosition bQuadVertexPositions bQuadIndex 3 in
  let lowerControlPointPosition :=
    getPosition bQuadVertexPositions bQuadIndex 4 in
  let lowerLeftPosition := getPosition bQuadVertexPositions bQuadIndex 5 in
  (if drawVertices then
     drawVertexIfNecessary upperLeftPosition invScaleFactor ++
     drawVertexIfNecessary upperRightPosition invScaleFactor ++
     drawVertexIfNecessary lowerLeftPosition invScaleFactor ++
     drawVertexIfNecessary lowerRightPosition invScaleFactor
   else []) ++
  [ BeginPath;
    MoveTo (at0 upperLeftPosition) (- at1 upperLeftPosition) ] ++
  match Some upperControlPointPosition with
  | Some controlPoint =>
      [ SetStrokeStyle CURVE_STROKE_STYLE;
        QuadraticCurveTo (at0 controlPoint) (- at1 controlPoint)
          (at0 upperRightPosition) (- at1 upperRightPosition) ]
  | None =>
      [ SetStrokeStyle LINE_STROKE_STYLE;
        LineTo (at0 upperRightPosition) (- at1 upperRightPosition) ]
  end ++
  [ Stroke;
    SetStrokeStyle LIGHT_STROKE_STYLE;
    BeginPath;
    MoveTo (at0 upperRightPosition) (- at1 upperRightPosition);
    LineTo (at0 lowerRightPosition) (- at1 lowerRightPosition);
    Stroke;
    BeginPath;
    MoveTo (at0 lowerRightPosition) (- at1 lowerRightPosition) ] ++
  match Some lowerControlPointPosition with
  | Some controlPoint =>
      [ SetStrokeStyle CURVE_STROKE_STYLE;
        QuadraticCurveTo (at0 controlPoint) (- at1 controlPoint)
          (at0 lowerLeftPosition) (- at1 lowerLeftPosition) ]
  | None =>
      [ SetStrokeStyle LINE_STROKE_STYLE;
        LineTo (at0 lowerLeftPosition) (- at1 lowerLeftPosition) ]
  end ++
  [ Stroke;
    SetStrokeStyle LIGHT_STROKE_STYLE;
    BeginPath;
    MoveTo (at0 lowerLeftPosition) (- at1 lowerLeftPosition);
    LineTo (at0 upperLeftPosition) (- at1 upperLeftPosition);
    Stroke ].

(** The dots on the four corners of a B-quad (lines 291-296), which the turn
    of the loop draws first when [drawVertices] is set. *)
Definition bQuadCornerDots (bQuadVertexPositions : Float32Array)
    (invScaleFactor : F) (bQuadIndex : nat) : Draw :=
  drawVertexIfNecessary
    (getPosition bQuadVertexPositions bQuadIndex 0) invScaleFactor ++
  drawVertexIfNecessary
    (getPosition bQuadVertexPositions bQuadIndex 2) invScaleFactor ++
  drawVertexIfNecessary
    (getPosition bQuadVertexPositions bQuadIndex 5) invScaleFactor ++
  drawVertexIfNecessary
    (getPosition bQuadVertexPositions bQuadIndex 3) invScaleFactor.

(** What [redraw] issues before the loops, once a mesh is there
    (lines 259-269). *)
Definition redraw_setup (window : Window) (this : MeshDebuggerView) : Draw :=
  let invScaleFactor := devicePixelRatio window / scale (camera this) in
  [ ClearRect (lit 0) (lit 0) (width (canvas this)) (height (canvas this));
    Save;
    Translate (at0 (translation (camera this)))
              (height (canvas this) - at1 (translation (camera this)));
    Scale (scale (camera this)) (scale (camera this));
    SetFont ("12px " ++ POINT_LABEL_FONT);
    SetLineWidth invScaleFactor ].

(** The calls are those made on the 2D context of the view's canvas, which
    [unwrapNull(this.canvas.getContext('2d'))] yields. *)
Definition redraw (window : Window) (this : MeshDebuggerView) : Draw :=
  PathfinderView_redraw ++
  match meshes (appController this) with
  | None => []
  | Some meshes =>
      let invScaleFactor := devicePixelRatio window / scale (camera this) in
      redraw_setup window this ++
      (* Draw B-quads. *)
      flat_map
        (redraw_bQuad (bQuadVertexPositions meshes) invScaleFactor
           (drawVertices this))
        (seq 0 (bQuadVertexPositionCount meshes)) ++
      (* Draw segments. *)
      (if drawVertices this then
         drawSegmentVertices (stencilSegments meshes) (stencilNormals meshes)
           (stencilSegmentCount meshes) [0; 2]%nat (Some 1%nat) 3
           invScaleFactor
           (drawControl this) (drawNormals this) (drawSegments this)
       else []) ++
      [ Restore ]
  end.

(** ** Reading a trace *)

Definition is_stroke (op : CanvasOp) : bool :=
  match op with
  | Stroke => true
  | _ => false
  end.

Definition count_strokes (d : Draw) : nat :=
  List.length (filter is_stroke d).

(** The points that an operation takes: the target of a move or a line, the
    control point and the target of a curve, the centre of an arc. *)
Definition op_points (op : CanvasOp) : list (F * F) :=
  match op with
  | MoveTo x y => [(x, y)]
  | LineTo x y => [(x, y)]
  | QuadraticCurveTo cpx cpy x y => [(cpx, cpy); (x, y)]
  | Arc x y _ _ _ => [(x, y)]
  | _ => []
  end.

(** A mesh point as the canvas must receive it: same abscissa, opposite
    ordinate. *)
Definition flipY (p : vec2) : F * F := (at0 p, - at1 p).



(** The points that [drawNormal] computes for the arrow at [position]: the
    end of the shaft and the tips of the two wings. *)
Definition normalTips (position normalVector : vec2) (invScaleFactor : F)
    (normalType : NormalType) : list (F * F) :=
  let endpoint :=
    normalEndpoint position normalVector invScaleFactor normalType in
  [ (at0 endpoint, at1 endpoint);
    normalWing1 endpoint normalVector invScaleFactor;
    normalWing2 endpoint normalVector invScaleFactor ].

(** ** The 2D context as a state machine

    The part of the canvas that the traces act on.  The drawing state (styles,
    line width, dash list, font, transform) is kept as the list of the writes
    and transforms applied to it, oldest first: [save] pushes it, [restore]
    pops it (and does nothing on an empty stack).  The current path is the
    list of its segments; [stroke], [fill] and [clearRect] paint, and what
    is painted is recorded with the path and the drawing state in force. *)
Inductive Paint : Type :=
| Painted (op : CanvasOp) (path : list CanvasOp) (state : list CanvasOp).

Record Context2D : Type := {
  drawingState : list CanvasOp;
  stateStack : list (list CanvasOp);
  currentPath : list CanvasOp;
  painted : list Paint
}.

Definition exec (c : Context2D) (op : CanvasOp) : Context2D :=
  match op with
  | Save =>
      {| drawingState := drawingState c;
         stateStack := drawingState c :: stateStack c;
         currentPath := currentPath c; painted := painted c |}
  | Restore =>
      match stateStack c with
      | s :: rest =>
          {| drawingState := s; stateStack := rest;
             currentPath := currentPath c; painted := painted c |}
      | [] => c
      end
  | BeginPath =>
      {| drawingState := drawingState c; stateStack := stateStack c;
         currentPath := []; painted := painted c |}
  | MoveTo _ _ | LineTo _ _ | QuadraticCurveTo _ _ _ _ | Arc _ _ _ _ _ =>
      {| drawingState := drawingState c; stateStack := stateStack c;
         currentPath := currentPath c ++ [op]; painted := painted c |}
  | Stroke | Fill =>
      {| drawingState := drawingState c; stateStack := stateStack c;
         currentPath := currentPath c;
         painted :=
           painted c ++ [Painted op (currentPath c) (drawingState c)] |}
  | ClearRect _ _ _ _ =>
      {| drawingState := drawingState c; stateStack := stateStack c;
         currentPath := currentPath c;
         painted := painted c ++ [Painted op [] (drawingState c)] |}
  | Translate _ _ | Scale _ _ | SetFont _ | SetLineWidth _
  | SetStrokeStyle _ | SetFillStyle _ | SetLineDash _ =>
      {| drawingState := drawingState c ++ [op];
         stateStack := stateStack c;
         currentPath := currentPath c; painted := painted c |}
  end.

Definition run (c : Context2D) (d : Draw) : Context2D := fold_left exec d c.

(** The stroke style in force in a drawing state: the last one written, if
    any was. *)
Fixpoint strokeStyle_of (state : list CanvasOp) : option string :=
  match state with
  | [] => None
  | op :: rest =>
      match strokeStyle_of rest, op with
      | Some s, _ => Some s
      | None, SetStrokeStyle s => Some s
      | None, _ => None
      end
  end.

(** What a trace strokes, on a context with nothing set and no path: each
    stroked path with the stroke style it is stroked in. *)
Definition strokes_of (d : Draw) : list (option string * list CanvasOp) :=
  flat_map
    (fun p =>
       match p with
       | Painted Stroke path state => [(strokeStyle_of state, path)]
       | Painted _ _ _ => []
       end)
    (painted (run {| drawingState := []; stateStack := [];
                     currentPath := []; painted := [] |} d)).

(** What a trace paints when it runs on [c]: the paints that it adds. *)
Definition frame (c : Context2D) (d : Draw) : list Paint :=
  skipn (List.length (painted c)) (painted (run c d)).

(** Every point that a trace hands to the surface. *)
Definition trace_points (d : Draw) : list (F * F) := flat_map op_points d.

(** A context in drawing state [state], with nothing saved, no path and
    nothing painted. *)
Definition fresh (state : list CanvasOp) : Context2D :=
  {| drawingState := state; stateStack := []; currentPath := [];
     painted := [] |}.

(** A trace is scoped when, run on any context, it leaves the stack of saved
    states as it found it, and the drawing state it ends in and the paints
    it adds are those it would produce from the same drawing state on a
    fresh context: it neither pops a state it did not push nor paints a path
    it did not begin. *)
Definition scoped (d : Draw) : Prop :=
  forall c,
    drawingState (run c d) = drawingState (run (fresh (drawingState c)) d) /\
    stateStack (run c d) = stateStack c /\
    painted (run c d) =
      painted c ++ painted (run (fresh (drawingState c)) d).

(** ** Further readings of a trace and of a view *)

(** The view after the keys of [keys] were pressed, first to last. *)
Definition pressAll (this : MeshDebuggerView) (keys : list string)
  : MeshDebuggerView :=
  fold_left press keys this.

Definition is_fill (op : CanvasOp) : bool :=
  match op with
  | Fill => true
  | _ => false
  end.

Definition count_fills (d : Draw) : nat := List.length (filter is_fill d).

(** A buffer laid out from points: the two coordinates of each point, one
    point after the other. *)
Definition flatten_points (points : list vec2) : Float32Array :=
  flat_map (fun p => [at0 p; at1 p]) points.

(** A point as a [vec2] holds it once it was read from a buffer. *)
Definition stored (p : vec2) : vec2 :=
  {| at0 := fround (at0 p); at1 := fround (at1 p) |}.

(** ** [getNormal] (lines 381-383) *)
Definition getNormal (normals : Float32Array) (bQuadIndex vertexIndex : nat)
  : option F :=
  elem normals (Some (bQuadIndex * 6 + vertexIndex)%nat).

(** The transforms of a drawing state: the translations and scalings
    applied to it, oldest first. *)
Definition is_transform (op : CanvasOp) : bool :=
  match op with
  | Translate _ _ | Scale _ _ => true
  | _ => false
  end.

Definition transforms_of (state : list CanvasOp) : list CanvasOp :=
  filter is_transform state.

(** A trace that applies no transform of its own: it ends with the
    transforms and the stack of saved states it found, and every paint it
    adds is a stroke or a fill made under the transforms it found. *)
Definition keeps_transforms (d : Draw) : Prop :=
  forall c,
    transforms_of (drawingState (run c d)) =
      transforms_of (drawingState c) /\
    stateStack (run c d) = stateStack c /\
    exists paints,
      painted (run c d) = painted c ++ paints /\
      Forall (fun paint =>
                match paint with
                | Painted op _ state =>
                    (op = Stroke \/ op = Fill) /\
                    transforms_of state = transforms_of (drawingState c)
                end) paints.

(** The sizes that an operation sets are those that the drawing functions
    derive from [invScaleFactor]: a line width is [invScaleFactor] or
    [invScaleFactor] times a stroke width, the radius of an arc is a point
    radius times [invScaleFactor] and the arc is a full circle, the two
    dashes of a dash list are twice [invScaleFactor]. *)
Definition sized_by (invScaleFactor : F) (op : CanvasOp) : Prop :=
  match op with
  | SetLineWidth w =>
      w = invScaleFactor \/
      w = invScaleFactor * SEGMENT_STROKE_WIDTH \/
      w = invScaleFactor * SEGMENT_CONTROL_POINT_STROKE_WIDTH
  | Arc _ _ radius startAngle endAngle =>
      (radius = POINT_RADIUS * invScaleFactor \/
       radius = SEGMENT_POINT_RADIUS * invScaleFactor) /\
      startAngle = lit 0 /\ endAngle = lit 2 * Math_PI
  | SetLineDash segments =>
      segments = [lit 2 * invScaleFactor; lit 2 * invScaleFactor]
  | _ => True
  end.

End Debugger.

Arguments Save {F}.
Arguments Restore {F}.
Arguments BeginPath {F}.
Arguments Stroke {F}.
Arguments Fill {F}.
Arguments SetFont {F} font.
Arguments SetStrokeStyle {F} style.
Arguments SetFillStyle {F} style.
Arguments PathfinderView_redraw {F}.
Arguments flipY {F JSN} p.


(** ** [getNormals] (lines 385-398)

    A [NormalsTable<T>] is an object with the four properties [lowerCurve],
    [lowerLine], [upperCurve] and [upperLine]: a value of [T] for each key.
    [getNormals] reads the cursor of one key in [normalIndices], advances it
    in place, and returns the pair of normals under the cursor; the table of
    cursors after the call is returned beside the pair. *)
Module Normals.

Inductive Key : Type := lowerCurve | lowerLine | upperCurve | upperLine.

Inductive Side : Type := upper | lower.

Definition NormalsTable (T : Type) : Type := Key -> T.

Definition Key_eqb (a b : Key) : bool :=
  match a, b with
  | lowerCurve, lowerCurve | lowerLine, lowerLine
  | upperCurve, upperCurve | upperLine, upperLine => true
  | _, _ => false
  end.

Definition key_name (k : Key) : string :=
  match k with
  | lowerCurve => "lowerCurve"
  | lowerLine => "lowerLine"
  | upperCurve => "upperCurve"
  | upperLine => "upperLine"
  end.

Definition side_name (side : Side) : string :=
  match side with
  | upper => "upper"
  | lower => "lower"
  end.

(** [side + (isCurve ? 'Curve' : 'Line')], as a key of the table. *)
Definition key_of (side : Side) (isCurve : bool) : Key :=
  match side, isCurve with
  | upper, true => upperCurve
  | upper, false => upperLine
  | lower, true => lowerCurve
  | lower, false => lowerLine
  end.

(** [table[key] = v]. *)
Definition assign (T : Type) (table : NormalsTable T) (key : Key) (v : T)
  : NormalsTable T :=
  fun k => if Key_eqb k key then v else table k.

Record Pair (F : Type) : Type := { left : option F; right : option F }.

Definition getNormals (F : Type) (normals : NormalsTable (list F))
    (normalIndices : NormalsTable nat) (isCurve : bool) (side : Side)
  : NormalsTable nat * Pair F :=
  let key := key_of side isCurve in
  let startOffset := normalIndices key in
  (assign normalIndices key (startOffset + 1),
   {| left := nth_error (normals key) (startOffset * 2 + 0);
      right := nth_error (normals key) (startOffset * 2 + 1) |}).

(** [count] calls in a row with the same arguments: the pairs returned,
    first to last, and the cursors after the last call. *)
Fixpoint getNormals_times (F : Type) (count : nat)
    (normals : NormalsTable (list F)) (normalIndices : NormalsTable nat)
    (isCurve : bool) (side : Side) : NormalsTable nat * list (Pair F) :=
  match count with
  | O => (normalIndices, [])
  | S n =>
      let (indices, pair) := getNormals normals normalIndices isCurve side in
      let (final, pairs) :=
        getNormals_times n normals indices isCurve side in
      (final, pair :: pairs)
  end.

End Normals.

(** ** Sample inputs, on IEEE numbers *)

Module Sample.

Definition num (z : Z) : PrimFloat.float := IEEE.literal z.

Definition sample_camera : OrthographicCamera PrimFloat.float :=
  {| translation := mkvec2 (num 0) (num 0); scale := num 1 |}.

Definition sample_canvas : HTMLCanvasElement PrimFloat.float :=
  {| width := num 640; height := num 480 |}.

Definition sample_window : Window PrimFloat.float :=
  {| devicePixelRatio := num 1 |}.

(** No B-quad, one stencil segment from (0,0) to (10,0) with its control
    point at (5,5), every normal pointing up. *)
Definition segment_mesh : PathfinderMeshData PrimFloat.float :=
  {| bQuadVertexPositions := [];
     bQuadVertexPositionCount := 0;
     stencilSegments := [num 0; num 0; num 5; num 5; num 10; num 0];
     stencilNormals := [num 0; num 1; num 0; num 1; num 0; num 1];
     stencilSegmentCount := 1 |}.

(** One B-quad with corners (0,10), (10,10), (10,0), (0,0) whose two control
    point slots hold NaN, and no segment. *)
Definition straight_quad_positions : Float32Array PrimFloat.float :=
  [ num 0; num 10; PrimFloat.nan; PrimFloat.nan; num 10; num 10;
    num 10; num 0; PrimFloat.nan; PrimFloat.nan; num 0; num 0 ].

Definition straight_quad_mesh : PathfinderMeshData PrimFloat.float :=
  {| bQuadVertexPositions := straight_quad_positions;
     bQuadVertexPositionCount := 1;
     stencilSegments := [];
     stencilNormals := [];
     stencilSegmentCount := 0 |}.

Definition view_of (m : option (PathfinderMeshData PrimFloat.float))
  : MeshDebuggerView PrimFloat.float :=
  initial_view sample_camera {| meshes := m |} sample_canvas.

End Sample.

(** Buffers laid out from points, and two contexts in the same drawing
    state. *)
Module SampleLayout.

Definition pt (x y : Z) : vec2 PrimFloat.float :=
  mkvec2 (Sample.num x) (Sample.num y).

(** One B-quad: upper left, upper control, upper right, lower right, lower
    control, lower left. *)
Definition quads : list (list (vec2 PrimFloat.float)) :=
  [ [ pt 0 10; pt 5 12; pt 10 10; pt 10 0; pt 5 (-2); pt 0 0 ] ].

(** One segment: first endpoint, control point, second endpoint. *)
Definition records : list (list (vec2 PrimFloat.float)) :=
  [ [ pt 0 0; pt 5 5; pt 10 0 ] ].

Definition clean_context : Context2D PrimFloat.float := fresh [].

Definition used_context : Context2D PrimFloat.float :=
  {| drawingState := [];
     stateStack := [[SetLineWidth (Sample.num 7)]];
     currentPath := [MoveTo (Sample.num 1) (Sample.num 1)];
     painted := [Painted Fill [] []] |}.

Definition hidden_vertices_view : MeshDebuggerView PrimFloat.float :=
  set_drawVertices (Sample.view_of (Some Sample.segment_mesh)) false.

End SampleLayout.

(** * Properties *)

Section KeyHandling.

Context (F : Type).

Implicit Types this : MeshDebuggerView F.

Lemma set_drawControl_twice this :
  set_drawControl (set_drawControl this (negb (drawControl this)))
    (negb (negb (drawControl this))) = this.
Proof.
  destruct this; unfold set_drawControl; simpl.
  now rewrite negb_involutive.
Qed.

Lemma set_drawNormals_twice this :
  set_drawNormals (set_drawNormals this (negb (drawNormals this)))
    (negb (negb (drawNormals this))) = this.
Proof.
  destruct this; unfold set_drawNormals; simpl.
  now rewrite negb_involutive.
Qed.

Lemma set_drawVertices_twice this :
  set_drawVertices (set_drawVertices this (negb (drawVertices this)))
    (negb (negb (drawVertices this))) = this.
Proof.
  destruct this; unfold set_drawVertices; simpl.
  now rewrite negb_involutive.
Qed.

Lemma press_c this :
  press this "c" = set_drawControl this (negb (drawControl this)).
Proof. reflexivity. Qed.

Lemma press_n this :
  press this "n" = set_drawNormals this (negb (drawNormals this)).
Proof. reflexivity. Qed.

Lemma press_v this :
  press this "v" = set_drawVertices this (negb (drawVertices this)).
Proof. reflexivity. Qed.

Lemma press_unmapped this k :
  mapped_key k = false -> press this k = this.
Proof.
  unfold mapped_key, press, onKeyPress; simpl; intros H.
  repeat (apply orb_false_elim in H; destruct H as [H ?]).
  now repeat match goal with E : (_ =? _)%string = false |- _ =>
    rewrite E; clear E end.
Qed.

(** C3, as amended: a key other than c, n, v and r leaves the view (and so
    the four overlay flags) as it was; the redraw request, the one call to
    [setDirty], is made for every key event, whether or not the event
    changed the overlay state. *)
Theorem onKeyPress_always_requests_redraw this event :
  snd (onKeyPress this event) = [SetDirty] /\
  (mapped_key (key event) = false -> fst (onKeyPress this event) = this).
Proof.
  split; [reflexivity|].
  intros H. destruct event as [k]. now apply press_unmapped.
Qed.

(** C5: whatever the overlay state was, and for [drawSegments] true as well
    as false, the key r sets [drawControl], [drawNormals] and [drawVertices]
    to true and leaves [drawSegments] as it was. *)
Theorem reset_keeps_drawSegments this (segments : bool) :
  let before := set_drawSegments this segments in
  let after := press before "r" in
  drawControl after = true /\
  drawNormals after = true /\
  drawVertices after = true /\
  drawSegments after = segments /\
  drawSegments after = drawSegments before.
Proof. repeat split. Qed.

(** C10: each of the keys c, n and v negates its own flag and leaves the
    three other flags as they were; pressed twice in a row, it gives the
    view back as it was before the first press. *)
Theorem toggle_keys_involutive this :
  (drawControl (press this "c") = negb (drawControl this) /\
   drawNormals (press this "c") = drawNormals this /\
   drawVertices (press this "c") = drawVertices this /\
   drawSegments (press this "c") = drawSegments this /\
   press (press this "c") "c" = this) /\
  (drawNormals (press this "n") = negb (drawNormals this) /\
   drawControl (press this "n") = drawControl this /\
   drawVertices (press this "n") = drawVertices this /\
   drawSegments (press this "n") = drawSegments this /\
   press (press this "n") "n" = this) /\
  (drawVertices (press this "v") = negb (drawVertices this) /\
   drawControl (press this "v") = drawControl this /\
   drawNormals (press this "v") = drawNormals this /\
   drawSegments (press this "v") = drawSegments this /\
   press (press this "v") "v" = this).
Proof.
  repeat split;
    solve [ reflexivity
          | rewrite !press_c; apply set_drawControl_twice
          | rewrite !press_n; apply set_drawNormals_twice
          | rewrite !press_v; apply set_drawVertices_twice ].
Qed.

End KeyHandling.

(** C3 as the claim has it fails: the key x is none of c, n, v and r and
    changes nothing, and yet the handler requests a redraw. *)
Lemma unmapped_key_requests_redraw :
  mapped_key "x" = false /\
  press (Sample.view_of None) "x" = Sample.view_of None /\
  snd (onKeyPress (Sample.view_of None) {| key := "x" |}) <> [].
Proof. repeat split; discriminate. Qed.

Lemma onKeyPress_always_requests_redraw_witness :
  snd (onKeyPress (Sample.view_of None) {| key := "x" |}) = [SetDirty] /\
  fst (onKeyPress (Sample.view_of None) {| key := "x" |}) =
    Sample.view_of None.
Proof.
  destruct (onKeyPress_always_requests_redraw
              (Sample.view_of None) {| key := "x" |}) as [H1 H2].
  split; [exact H1 | apply H2; reflexivity].
Defined.

Section Rendering.

Context (F : Type) {JSN : JSNumber F}.

Local Open Scope js_scope.

Implicit Types (this : MeshDebuggerView F) (window : Window F).
Implicit Types (d : Draw F) (c : Context2D F).

(** *** The shape of [redraw] *)

Lemma redraw_no_mesh window this :
  meshes (appController this) = None -> redraw window this = [].
Proof. unfold redraw. now intros ->. Qed.

Lemma redraw_mesh window this m :
  meshes (appController this) = Some m ->
  redraw window this =
    redraw_setup window this ++
    flat_map
      (redraw_bQuad (bQuadVertexPositions m)
         (devicePixelRatio window / scale (camera this)) (drawVertices this))
      (seq 0 (bQuadVertexPositionCount m)) ++
    (if drawVertices this then
       drawSegmentVertices (stencilSegments m) (stencilNormals m)
         (stencilSegmentCount m) [0; 2]%nat (Some 1%nat) 3
         (devicePixelRatio window / scale (camera this))
         (drawControl this) (drawNormals this) (drawSegments this)
     else []) ++
    [Restore].
Proof. unfold redraw. now intros ->. Qed.

Lemma redraw_bQuad_with_dots (positions : Float32Array F) inv i :
  redraw_bQuad positions inv true i =
    bQuadCornerDots positions inv i ++ redraw_bQuad positions inv false i.
Proof. reflexivity. Qed.

Lemma painted_run_extends d :
  forall c, exists l, painted (run c d) = painted c ++ l.
Proof.
  induction d as [|op d IH]; intros c.
  - exists []. simpl. now rewrite app_nil_r.
  - destruct (IH (exec c op)) as [l Hl].
    change (run c (op :: d)) with (run (exec c op) d). rewrite Hl.
    destruct op; simpl; try destruct (stateStack c); simpl;
      rewrite <- ?app_assoc; eexists; reflexivity.
Qed.

Lemma frame_clearRect_first c x y w h d :
  exists paints,
    frame c (ClearRect x y w h :: d) =
      Painted (ClearRect x y w h) [] (drawingState c) :: paints.
Proof.
  unfold frame.
  change (run c (ClearRect x y w h :: d))
    with (run (exec c (ClearRect x y w h)) d).
  destruct (painted_run_extends d (exec c (ClearRect x y w h))) as [l ->].
  simpl. rewrite <- app_assoc, skipn_app, Nat.sub_diag, skipn_all.
  exists l. reflexivity.
Qed.

(** C8: with no mesh loaded, [redraw] issues no operation at all on the
    drawing surface, and returns; with a mesh, the first operation it issues
    is the [clearRect] of the whole canvas, so that on any context the clear
    is painted ahead of every stroke and fill of the frame, in the drawing
    state that the context had on entry. *)
Theorem redraw_noop_without_mesh_clears_first window this :
  (meshes (appController this) = None -> redraw window this = []) /\
  (forall m, meshes (appController this) = Some m ->
     let clear :=
       ClearRect (lit 0) (lit 0) (width (canvas this))
         (height (canvas this)) in
     (exists rest, redraw window this = clear :: rest) /\
     (forall c, exists paints,
        frame c (redraw window this) =
          Painted clear [] (drawingState c) :: paints)).
Proof.
  split.
  - apply redraw_no_mesh.
  - intros m Hm clear. rewrite (redraw_mesh window this Hm).
    unfold redraw_setup. simpl. split.
    + eexists. reflexivity.
    + intros c. apply frame_clearRect_first.
Qed.

(** C1, as amended: once a mesh is loaded, and whatever the other toggles,
    the trace with [drawVertices] on is the setup, then for each B-quad its
    corner dots followed by its edge and connecting strokes, then the
    segment pass, then the closing [restore]; the trace with [drawVertices]
    off is the same with the corner dots and the whole segment pass (markers,
    arrows, hulls, raw lines) taken out.  The B-quad strokes are what stays
    unchanged. *)
Theorem drawVertices_off_drops_dots_and_segment_pass window this m :
  meshes (appController this) = Some m ->
  let inv := devicePixelRatio window / scale (camera this) in
  let quads := seq 0 (bQuadVertexPositionCount m) in
  let strokes := redraw_bQuad (bQuadVertexPositions m) inv false in
  redraw window (set_drawVertices this true) =
    redraw_setup window this ++
    flat_map
      (fun i => bQuadCornerDots (bQuadVertexPositions m) inv i ++ strokes i)
      quads ++
    drawSegmentVertices (stencilSegments m) (stencilNormals m)
      (stencilSegmentCount m) [0; 2]%nat (Some 1%nat) 3 inv
      (drawControl this) (drawNormals this) (drawSegments this) ++
    [Restore] /\
  redraw window (set_drawVertices this false) =
    redraw_setup window this ++ flat_map strokes quads ++ [Restore].
Proof.
  intros Hm inv quads strokes. split.
  - rewrite (@redraw_mesh window (set_drawVertices this true) m Hm).
    reflexivity.
  - rewrite (@redraw_mesh window (set_drawVertices this false) m Hm).
    reflexivity.
Qed.

(** *** Strokes *)

(** C4, as amended: every call of [drawNormal] issues exactly two strokes.
    The first strokes one path that runs from the anchor along the shaft to
    its end and on to the tip of the first wing; the second strokes the
    second wing alone, from the end of the shaft to its tip.  Both use the
    stroke style of the normal type. *)
Theorem drawNormal_two_strokes (position normalVector : vec2 F) inv t :
  let endpoint := normalEndpoint position normalVector inv t in
  let wing1 := normalWing1 endpoint normalVector inv in
  let wing2 := normalWing2 endpoint normalVector inv in
  count_strokes (drawNormal position normalVector inv t) = 2%nat /\
  strokes_of (drawNormal position normalVector inv t) =
    [ (Some (NORMAL_STROKE_STYLES t),
       [ MoveTo (at0 position) (- at1 position);
         LineTo (at0 endpoint) (at1 endpoint);
         LineTo (fst wing1) (snd wing1) ]);
      (Some (NORMAL_STROKE_STYLES t),
       [ MoveTo (at0 endpoint) (at1 endpoint);
         LineTo (fst wing2) (snd wing2) ]) ].
Proof. split; reflexivity. Qed.

(** Whatever the buffer holds, both edges of a B-quad are stroked as
    quadratic curves in the curve style: the line branch is never taken. *)
Lemma redraw_bQuad_strokes (positions : Float32Array F) inv drawVertices i :
  let p := getPosition positions i in
  strokes_of (redraw_bQuad positions inv drawVertices i) =
    [ (Some CURVE_STROKE_STYLE,
       [ MoveTo (at0 (p 0%nat)) (- at1 (p 0%nat));
         QuadraticCurveTo (at0 (p 1%nat)) (- at1 (p 1%nat))
           (at0 (p 2%nat)) (- at1 (p 2%nat)) ]);
      (Some LIGHT_STROKE_STYLE,
       [ MoveTo (at0 (p 2%nat)) (- at1 (p 2%nat));
         LineTo (at0 (p 3%nat)) (- at1 (p 3%nat)) ]);
      (Some CURVE_STROKE_STYLE,
       [ MoveTo (at0 (p 3%nat)) (- at1 (p 3%nat));
         QuadraticCurveTo (at0 (p 4%nat)) (- at1 (p 4%nat))
           (at0 (p 5%nat)) (- at1 (p 5%nat)) ]);
      (Some LIGHT_STROKE_STYLE,
       [ MoveTo (at0 (p 5%nat)) (- at1 (p 5%nat));
         LineTo (at0 (p 0%nat)) (- at1 (p 0%nat)) ]) ].
Proof. destruct drawVertices; reflexivity. Qed.


(** *** The Y flip *)



Ltac in_list := repeat (first [left; reflexivity | right]).


Lemma drawNormal_points (position normalVector : vec2 F) inv t :
  incl (trace_points (drawNormal position normalVector inv t))
       (flipY position :: normalTips position normalVector inv t).
Proof.
  intros q Hq. simpl in Hq.
  repeat (destruct Hq as [<-|Hq]; [in_list|]).
  destruct Hq.
Qed.






(** *** Scoping of the drawing state *)

Lemma run_app c d1 d2 : run c (d1 ++ d2) = run (run c d1) d2.
Proof. unfold run. apply fold_left_app. Qed.

Ltac scoped_by_run :=
  intros [s st p pt]; repeat split;
  solve [simpl; rewrite ?app_nil_r, <- ?app_assoc; reflexivity].

Lemma scoped_nil : scoped (@nil (CanvasOp F)).
Proof. scoped_by_run. Qed.

Lemma scoped_app d1 d2 : scoped d1 -> scoped d2 -> scoped (d1 ++ d2).
Proof.
  intros H1 H2 c. rewrite !run_app.
  destruct (H1 c) as (Hs1 & Hk1 & Hp1).
  destruct (H2 (run c d1)) as (Hs2 & Hk2 & Hp2).
  destruct (H2 (run (fresh (drawingState c)) d1)) as (Hs3 & _ & Hp3).
  rewrite Hs1 in Hs2, Hp2. repeat split.
  - now rewrite Hs2, Hs3.
  - now rewrite Hk2, Hk1.
  - rewrite Hp2, Hp3, Hp1.
    destruct (H1 (fresh (drawingState c))) as (_ & _ & Hp4).
    simpl in Hp4. now rewrite app_assoc.
Qed.

Lemma scoped_flat_map (A : Type) (f : A -> Draw F) (l : list A) :
  (forall a, scoped (f a)) -> scoped (flat_map f l).
Proof.
  intros H. induction l as [|a l IH]; simpl.
  - apply scoped_nil.
  - apply scoped_app; auto.
Qed.

(** A scoped trace between [save] and [restore] gives the drawing state
    back. *)
Lemma scoped_bracket d :
  scoped d ->
  scoped (Save :: d ++ [Restore]) /\
  forall c, drawingState (run c (Save :: d ++ [Restore])) = drawingState c.
Proof.
  intros H.
  assert (Hrun : forall c,
    run c (Save :: d ++ [Restore]) =
      {| drawingState := drawingState c; stateStack := stateStack c;
         currentPath := currentPath (run (exec c Save) d);
         painted := painted c ++ painted (run (fresh (drawingState c)) d) |}).
  { intros c. change (run c (Save :: d ++ [Restore]))
      with (run (exec c Save) (d ++ [Restore])).
    rewrite run_app. destruct (H (exec c Save)) as (_ & Hk & Hp).
    simpl in Hk, Hp. simpl. rewrite Hk, Hp. reflexivity. }
  split.
  - intros c. rewrite !Hrun. simpl. repeat split.
  - intros c. now rewrite Hrun.
Qed.

Lemma scoped_drawVertexIfNecessary (position : vec2 F) inv :
  scoped (drawVertexIfNecessary position inv).
Proof. scoped_by_run. Qed.

Lemma scoped_drawSegmentVertex (position : vec2 F) inv :
  scoped (drawSegmentVertex position inv).
Proof. scoped_by_run. Qed.

Lemma scoped_drawSegmentControlPoint (position : vec2 F) inv :
  scoped (drawSegmentControlPoint position inv).
Proof. scoped_by_run. Qed.

Lemma scoped_drawNormal (position normalVector : vec2 F) inv t :
  scoped (drawNormal position normalVector inv t).
Proof. scoped_by_run. Qed.

Lemma scoped_redraw_bQuad (positions : Float32Array F) inv drawVertices i :
  scoped (redraw_bQuad positions inv drawVertices i).
Proof. destruct drawVertices; scoped_by_run. Qed.

Lemma scoped_drawSegmentVertices_body (segments normals : Float32Array F)
    endpointOffsets controlPointOffset segmentSize inv
    (drawControl drawNormals drawSegments : bool) j :
  scoped (drawSegmentVertices_body segments normals endpointOffsets
            controlPointOffset segmentSize inv
            drawControl drawNormals drawSegments j).
Proof.
  destruct drawNormals, drawControl, drawSegments,
    controlPointOffset as [o|]; scoped_by_run.
Qed.

Lemma scoped_drawSegmentVertices (segments normals : Float32Array F)
    segmentCount endpointOffsets controlPointOffset segmentSize inv
    (drawControl drawNormals drawSegments : bool) :
  scoped (drawSegmentVertices segments normals segmentCount endpointOffsets
            controlPointOffset segmentSize inv
            drawControl drawNormals drawSegments).
Proof.
  apply scoped_flat_map. intros j. apply scoped_drawSegmentVertices_body.
Qed.

(** [redraw] is scoped and gives the drawing state back: all it writes to
    the state lies between its outer [save] and [restore]. *)
Lemma redraw_restores window this :
  scoped (redraw window this) /\
  forall c, drawingState (run c (redraw window this)) = drawingState c.
Proof.
  destruct (meshes (appController this)) as [m|] eqn:Hm.
  - rewrite (redraw_mesh window this Hm).
    set (inv := devicePixelRatio window / scale (camera this)).
    set (quads := flat_map _ _).
    set (segs := if drawVertices this then _ else _).
    set (body :=
      [ Translate (at0 (translation (camera this)))
          (height (canvas this) - at1 (translation (camera this)));
        Scale (scale (camera this)) (scale (camera this));
        SetFont ("12px " ++ POINT_LABEL_FONT);
        SetLineWidth inv ] ++ quads ++ segs).
    assert (Hshape :
      redraw_setup window this ++ quads ++ segs ++ [Restore] =
      [ ClearRect (lit 0) (lit 0) (width (canvas this))
          (height (canvas this)) ] ++ (Save :: body ++ [Restore])).
    { unfold body. simpl. now rewrite <- !app_assoc. }
    rewrite Hshape.
    assert (Hbody : scoped body).
    { unfold body. apply scoped_app; [scoped_by_run|].
      apply scoped_app.
      - apply scoped_flat_map. intros i. apply scoped_redraw_bQuad.
      - unfold segs. destruct (drawVertices this);
          [apply scoped_drawSegmentVertices | apply scoped_nil]. }
    destruct (scoped_bracket Hbody) as [Hsc Hst].
    split.
    + apply scoped_app; [scoped_by_run | exact Hsc].
    + intros c. rewrite run_app, Hst. reflexivity.
  - rewrite (redraw_no_mesh window this Hm).
    split; [apply scoped_nil|reflexivity].
Qed.

Lemma frame_scoped c d :
  scoped d -> frame c d = painted (run (fresh (drawingState c)) d).
Proof.
  intros H. unfold frame. destruct (H c) as (_ & _ & ->).
  rewrite skipn_app, Nat.sub_diag, skipn_all. reflexivity.
Qed.

(** C9: two calls of [redraw] whose views agree on the mesh, the four
    overlay flags, the camera translation and scale and the canvas size, under
    the same device pixel ratio, issue the same operations with the same
    arguments.  Run one after the other on a context, the first call hands
    the drawing state and the stack of saved states back as it found them,
    so that the second paints, after its own [clearRect], exactly what the
    first painted: same paths, same drawing state at each paint. *)
Theorem redraw_deterministic window1 window2 this1 this2 :
  meshes (appController this1) = meshes (appController this2) ->
  drawControl this1 = drawControl this2 ->
  drawNormals this1 = drawNormals this2 ->
  drawVertices this1 = drawVertices this2 ->
  drawSegments this1 = drawSegments this2 ->
  translation (camera this1) = translation (camera this2) ->
  scale (camera this1) = scale (camera this2) ->
  width (canvas this1) = width (canvas this2) ->
  height (canvas this1) = height (canvas this2) ->
  devicePixelRatio window1 = devicePixelRatio window2 ->
  redraw window1 this1 = redraw window2 this2 /\
  forall c,
    let c1 := run c (redraw window1 this1) in
    drawingState c1 = drawingState c /\
    stateStack c1 = stateStack c /\
    frame c1 (redraw window2 this2) = frame c (redraw window1 this1).
Proof.
  intros Hm Hc Hn Hv Hs Ht Hsc Hw Hh Hd.
  assert (E : redraw window1 this1 = redraw window2 this2).
  { destruct window1, window2, this1 as [[t1 s1] [m1] [w1 h1] ? ? ? ?],
      this2 as [[t2 s2] [m2] [w2 h2] ? ? ? ?].
    simpl in *. now subst. }
  split; [exact E|]. intros c c1. rewrite <- E.
  destruct (redraw_restores window1 this1) as [Hscoped Hstate].
  repeat split.
  - apply Hstate.
  - apply (Hscoped c).
  - rewrite !frame_scoped by exact Hscoped. unfold c1. now rewrite Hstate.
Qed.
End Rendering.

(** *** The Y flip, for every point of a redraw *)


(** *** Arrows in binary64 arithmetic *)

Section ArrowInDoubles.

Import PrimFloat.

Local Open Scope float_scope.

Variables cos sin : float -> float.

(** C7, as amended: in the arithmetic of the language, for the anchor
    (0,0), the normal (1,0), the type edge and [invScaleFactor] 1, the
    shaft runs from (0,-0) to (14,-0), which are (0,0) and (14,0) as
    numbers, and each wing ends where the rotation of the shaft direction
    by 5 pi / 6 (by - 5 pi / 6 for the second) puts it when it is worked
    out in doubles from [c = Math.cos(Math.PI * 5 / 6)] and
    [s = Math.sin(Math.PI * 5 / 6)]: at
    [(14 + 4 (c 1 + s 0), -0 + 4 (s 1 - c 0))] and at
    [(14 + 4 (c 1 - s 0), -0 - 4 (c 0 + s 1))].  When [c] and [s] are the
    doubles nearest to the cosine and the sine, these are
    (10.535898384862245, 1.9999999999999998) and
    (10.535898384862245, -1.9999999999999998). *)
Theorem edge_normal_arrow_in_doubles :
  let c := cos IEEE.arrowhead_angle in
  let s := sin IEEE.arrowhead_angle in
  let arrow :=
    @drawNormal float (IEEE.numbers cos sin)
      (mkvec2 0 0) (mkvec2 1 0) 1 edge in
  arrow =
    [ Save; SetStrokeStyle "#cc5500"; BeginPath;
      MoveTo 0 (-0);
      LineTo 14 (-0);
      LineTo (14 + 4 * (c * 1 + s * 0)) (-0 + 4 * (s * 1 - c * 0));
      Stroke; BeginPath;
      MoveTo 14 (-0);
      LineTo (14 + 4 * (c * 1 - s * 0)) (-0 - 4 * (c * 0 + s * 1));
      Stroke; Restore ]%float /\
  (c = IEEE.cos_arrowhead_angle ->
   s = IEEE.sin_arrowhead_angle ->
   arrow =
     [ Save; SetStrokeStyle "#cc5500"; BeginPath;
       MoveTo 0 (-0);
       LineTo 14 (-0);
       LineTo 0x1.5126145e9ecd5p+3 0x1.fffffffffffffp+0;
       Stroke; BeginPath;
       MoveTo 14 (-0);
       LineTo 0x1.5126145e9ecd5p+3 (-0x1.fffffffffffffp+0);
       Stroke; Restore ]%float).
Proof.
  intros c s arrow.
  assert (E : arrow =
    [ Save; SetStrokeStyle "#cc5500"; BeginPath;
      MoveTo 0 (-0);
      LineTo 14 (-0);
      LineTo (14 + 4 * (c * 1 + s * 0)) (-0 + 4 * (s * 1 - c * 0));
      Stroke; BeginPath;
      MoveTo 14 (-0);
      LineTo (14 + 4 * (c * 1 - s * 0)) (-0 - 4 * (c * 0 + s * 1));
      Stroke; Restore ]%float).
  { unfold arrow, c, s. vm_compute. reflexivity. }
  split; [exact E|].
  intros Hc Hs. rewrite E, Hc, Hs. vm_compute. reflexivity.
Qed.

End ArrowInDoubles.

(** *** The sample inputs *)

Local Open Scope js_scope.

(** C2 fails on the code: the B-quad of [Sample.straight_quad_mesh] has both
    control points absent, and both its edges are stroked as quadratic
    curves, in the curve style, through the NaN control point; no edge is
    stroked as a line, and the line style is never set. *)
Theorem absent_control_point_stroked_as_curve :
  let trace :=
    redraw Sample.sample_window
      (Sample.view_of (Some Sample.straight_quad_mesh)) in
  strokes_of trace =
    [ (Some CURVE_STROKE_STYLE,
       [ MoveTo (Sample.num 0) (- Sample.num 10);
         QuadraticCurveTo PrimFloat.nan PrimFloat.nan
           (Sample.num 10) (- Sample.num 10) ]);
      (Some LIGHT_STROKE_STYLE,
       [ MoveTo (Sample.num 10) (- Sample.num 10);
         LineTo (Sample.num 10) (- Sample.num 0) ]);
      (Some CURVE_STROKE_STYLE,
       [ MoveTo (Sample.num 10) (- Sample.num 0);
         QuadraticCurveTo PrimFloat.nan PrimFloat.nan
           (Sample.num 0) (- Sample.num 0) ]);
      (Some LIGHT_STROKE_STYLE,
       [ MoveTo (Sample.num 0) (- Sample.num 0);
         LineTo (Sample.num 0) (- Sample.num 10) ]) ] /\
  In (QuadraticCurveTo PrimFloat.nan PrimFloat.nan
        (Sample.num 10) (- Sample.num 10)) trace /\
  ~ In (SetStrokeStyle LINE_STROKE_STYLE) trace.
Proof.
  intros trace. split; [reflexivity|]. split.
  - repeat (first [left; reflexivity | right]).
  - intros H. repeat (destruct H as [H|H]; [discriminate H|]). exact H.
Qed.

(** C1 as the claim has it fails: [Sample.segment_mesh] has no B-quad, hence
    no corner dot to take out, and yet the trace with [drawVertices] off has
    lost the endpoint markers of the segment. *)
Lemma drawVertices_off_loses_segment_markers :
  let v := Sample.view_of (Some Sample.segment_mesh) in
  let on := redraw Sample.sample_window (set_drawVertices v true) in
  let off := redraw Sample.sample_window (set_drawVertices v false) in
  bQuadVertexPositionCount Sample.segment_mesh = 0%nat /\
  In (SetFillStyle SEGMENT_POINT_FILL_STYLE) on /\
  ~ In (SetFillStyle SEGMENT_POINT_FILL_STYLE) off /\
  off <> on.
Proof.
  intros v on off.
  assert (Hin : In (SetFillStyle SEGMENT_POINT_FILL_STYLE) on)
    by (repeat (first [left; reflexivity | right])).
  assert (Hout : ~ In (SetFillStyle SEGMENT_POINT_FILL_STYLE) off).
  { intros H. repeat (destruct H as [H|H]; [discriminate H|]). exact H. }
  repeat split; try assumption.
  intros E. apply Hout. rewrite E. exact Hin.
Qed.

(** C4 as the claim has it fails: the arrow of the normal (1,0) at the
    origin is drawn with two strokes, not three. *)
Lemma drawNormal_not_three_strokes :
  count_strokes
    (drawNormal (mkvec2 (Sample.num 0) (Sample.num 0))
                (mkvec2 (Sample.num 1) (Sample.num 0)) (Sample.num 1) edge)
    <> 3%nat.
Proof. discriminate. Qed.

(** *** The statements at the sample inputs *)

Lemma drawVertices_off_drops_dots_and_segment_pass_witness :
  let this := Sample.view_of (Some Sample.segment_mesh) in
  let m := Sample.segment_mesh in
  let window := Sample.sample_window in
  let inv := devicePixelRatio window / scale (camera this) in
  let quads := seq 0 (bQuadVertexPositionCount m) in
  let strokes := redraw_bQuad (bQuadVertexPositions m) inv false in
  redraw window (set_drawVertices this true) =
    redraw_setup window this ++
    flat_map
      (fun i => bQuadCornerDots (bQuadVertexPositions m) inv i ++ strokes i)
      quads ++
    drawSegmentVertices (stencilSegments m) (stencilNormals m)
      (stencilSegmentCount m) [0; 2]%nat (Some 1%nat) 3 inv
      (drawControl this) (drawNormals this) (drawSegments this) ++
    [Restore] /\
  redraw window (set_drawVertices this false) =
    redraw_setup window this ++ flat_map strokes quads ++ [Restore].
Proof.
  exact (@drawVertices_off_drops_dots_and_segment_pass PrimFloat.float _
           Sample.sample_window
           (Sample.view_of (Some Sample.segment_mesh))
           Sample.segment_mesh eq_refl).
Defined.

Lemma redraw_noop_without_mesh_clears_first_witness :
  redraw Sample.sample_window (Sample.view_of None) = [] /\
  let this := Sample.view_of (Some Sample.straight_quad_mesh) in
  let clear :=
    ClearRect (lit 0) (lit 0) (Sample.num 640) (Sample.num 480) in
  (exists rest, redraw Sample.sample_window this = clear :: rest) /\
  (forall c, exists paints,
     frame c (redraw Sample.sample_window this) =
       Painted clear [] (drawingState c) :: paints).
Proof.
  split.
  - exact (proj1 (redraw_noop_without_mesh_clears_first
                    Sample.sample_window (Sample.view_of None)) eq_refl).
  - exact (proj2 (redraw_noop_without_mesh_clears_first
                    Sample.sample_window
                    (Sample.view_of (Some Sample.straight_quad_mesh)))
                 Sample.straight_quad_mesh eq_refl).
Defined.


Lemma redraw_deterministic_witness :
  let window := Sample.sample_window in
  let this := Sample.view_of (Some Sample.straight_quad_mesh) in
  redraw window this = redraw window this /\
  forall c,
    let c1 := run c (redraw window this) in
    drawingState c1 = drawingState c /\
    stateStack c1 = stateStack c /\
    frame c1 (redraw window this) = frame c (redraw window this).
Proof.
  exact (@redraw_deterministic PrimFloat.float _
           Sample.sample_window Sample.sample_window
           (Sample.view_of (Some Sample.straight_quad_mesh))
           (Sample.view_of (Some Sample.straight_quad_mesh))
           eq_refl eq_refl eq_refl eq_refl eq_refl eq_refl eq_refl eq_refl
           eq_refl eq_refl).
Defined.

(** * Further properties *)

(** ** Sequences of key presses *)

Section KeySequences.

Context (F : Type) {JSN : JSNumber F}.

Implicit Types (this : MeshDebuggerView F) (keys : list string).

Lemma pressAll_cons this k keys :
  pressAll this (k :: keys) = pressAll (press this k) keys.
Proof. reflexivity. Qed.

(** What a key press can be: one of the three toggles, the reset, or
    nothing. *)
Lemma press_cases this k :
  (k = "c"%string /\
   press this k = set_drawControl this (negb (drawControl this))) \/
  (k = "n"%string /\
   press this k = set_drawNormals this (negb (drawNormals this))) \/
  (k = "v"%string /\
   press this k = set_drawVertices this (negb (drawVertices this))) \/
  (k = "r"%string /\
   press this k =
     set_drawVertices
       (set_drawNormals (set_drawControl this true) true) true) \/
  (k <> "c"%string /\ k <> "n"%string /\ k <> "v"%string /\
   k <> "r"%string /\ press this k = this).
Proof.
  unfold press, onKeyPress; simpl.
  destruct (String.eqb_spec k "c"); [auto|].
  destruct (String.eqb_spec k "n"); [auto|].
  destruct (String.eqb_spec k "v"); [auto 6|].
  destruct (String.eqb_spec k "r"); [auto 6|].
  auto 10.
Qed.

Lemma press_keeps_rest this k :
  drawSegments (press this k) = drawSegments this /\
  camera (press this k) = camera this /\
  appController (press this k) = appController this /\
  canvas (press this k) = canvas this.
Proof.
  destruct (press_cases this k)
    as [[_ ->]|[[_ ->]|[[_ ->]|[[_ ->]|(_ & _ & _ & _ & ->)]]]];
    repeat split.
Qed.

Lemma pressAll_keeps_rest this keys :
  drawSegments (pressAll this keys) = drawSegments this /\
  camera (pressAll this keys) = camera this /\
  appController (pressAll this keys) = appController this /\
  canvas (pressAll this keys) = canvas this.
Proof.
  revert this. induction keys as [|k keys IH]; intros this.
  - repeat split.
  - rewrite pressAll_cons.
    destruct (IH (press this k)) as (Hs & Hc & Ha & Hv).
    destruct (press_keeps_rest this k) as (Hs' & Hc' & Ha' & Hv').
    rewrite Hs, Hc, Ha, Hv. auto.
Qed.

(** X1: no sequence of key presses changes [drawSegments], nor the camera,
    the controller or the canvas of the view: the handler writes the three
    other flags only. *)
Theorem keys_never_change_drawSegments this keys :
  drawSegments (pressAll this keys) = drawSegments this /\
  camera (pressAll this keys) = camera this /\
  appController (pressAll this keys) = appController this /\
  canvas (pressAll this keys) = canvas this.
Proof. apply pressAll_keeps_rest. Qed.

(** X2: whatever keys were pressed since the view was created, the key r
    brings the view back to the state in which it was created. *)
Theorem reset_returns_to_initial_view
    (cam : OrthographicCamera F) (app : MeshDebuggerAppController F)
    (cv : HTMLCanvasElement F) keys :
  press (pressAll (initial_view cam app cv) keys) "r" =
    initial_view cam app cv.
Proof.
  destruct (pressAll_keeps_rest (initial_view cam app cv) keys)
    as (Hs & Hc & Ha & Hv).
  destruct (pressAll (initial_view cam app cv) keys); simpl in *.
  subst. reflexivity.
Qed.

Lemma xorb_negb_odd (b : bool) (n : nat) :
  xorb (negb b) (Nat.odd n) = xorb b (Nat.odd (S n)).
Proof.
  rewrite Nat.odd_succ, <- Nat.negb_odd.
  destruct b, (Nat.odd n); reflexivity.
Qed.

(** X3: as long as r is not pressed, each of the three toggled flags after a
    sequence of key presses is its value before, flipped when its key
    occurs an odd number of times in the sequence; the order of the keys and
    every other key are of no account. *)
Theorem toggles_follow_parity this keys :
  ~ In "r"%string keys ->
  drawControl (pressAll this keys) =
    xorb (drawControl this)
         (Nat.odd (count_occ string_dec keys "c"%string)) /\
  drawNormals (pressAll this keys) =
    xorb (drawNormals this)
         (Nat.odd (count_occ string_dec keys "n"%string)) /\
  drawVertices (pressAll this keys) =
    xorb (drawVertices this)
         (Nat.odd (count_occ string_dec keys "v"%string)).
Proof.
  revert this. induction keys as [|k keys IH]; intros this Hr.
  - simpl. now rewrite !xorb_false_r.
  - rewrite pressAll_cons.
    assert (Hk : k <> "r"%string) by (intros ->; apply Hr; now left).
    assert (Hr' : ~ In "r"%string keys) by (intros H; apply Hr; now right).
    destruct (IH (press this k) Hr') as (Hc & Hn & Hv).
    rewrite Hc, Hn, Hv. clear Hc Hn Hv IH.
    destruct (press_cases this k)
      as [[-> ->]|[[-> ->]|[[-> ->]|[[E _]|(Nc & Nn & Nv & _ & ->)]]]].
    + rewrite (count_occ_cons_eq string_dec keys eq_refl).
      rewrite !count_occ_cons_neq by discriminate.
      simpl. now rewrite xorb_negb_odd.
    + rewrite (count_occ_cons_eq string_dec keys eq_refl).
      rewrite !count_occ_cons_neq by discriminate.
      simpl. now rewrite xorb_negb_odd.
    + rewrite (count_occ_cons_eq string_dec keys eq_refl).
      rewrite !count_occ_cons_neq by discriminate.
      simpl. now rewrite xorb_negb_odd.
    + contradiction.
    + rewrite !count_occ_cons_neq by assumption. repeat split.
Qed.

Lemma pressAll_keeps_vertices this keys :
  ~ In "v"%string keys ->
  ~ In "r"%string keys ->
  drawVertices (pressAll this keys) = drawVertices this.
Proof.
  revert this. induction keys as [|k keys IH]; intros this Hv Hr.
  - reflexivity.
  - rewrite pressAll_cons, IH
      by (intros H; first [apply Hv; now right | apply Hr; now right]).
    destruct (press_cases this k)
      as [[_ ->]|[[_ ->]|[[E _]|[[E _]|(_ & _ & _ & _ & ->)]]]];
      try reflexivity; exfalso;
      first [apply Hv; now left | apply Hr; now left].
Qed.

Lemma redraw_without_vertices (window : Window F) this1 this2 :
  drawVertices this1 = false ->
  drawVertices this2 = false ->
  camera this1 = camera this2 ->
  appController this1 = appController this2 ->
  canvas this1 = canvas this2 ->
  redraw window this1 = redraw window this2.
Proof.
  destruct this1, this2; simpl. intros -> -> -> -> ->.
  unfold redraw; simpl. reflexivity.
Qed.

(** X4: while [drawVertices] is off, pressing keys other than v and r
    changes nothing of what [redraw] draws: the control-point and normal
    toggles act on the segment pass only, which is not drawn. *)
Theorem keys_invisible_without_vertices (window : Window F) this keys :
  drawVertices this = false ->
  ~ In "v"%string keys ->
  ~ In "r"%string keys ->
  redraw window (pressAll this keys) = redraw window this.
Proof.
  intros Hoff Hv Hr.
  destruct (pressAll_keeps_rest this keys) as (_ & Hc & Ha & Hcv).
  pose proof (@pressAll_keeps_vertices this keys Hv Hr) as Hsame.
  apply redraw_without_vertices; congruence.
Qed.

End KeySequences.

(** ** Counting what a redraw paints *)

Section Counting.

Context (F : Type) {JSN : JSNumber F}.

Local Open Scope js_scope.

Implicit Types (this : MeshDebuggerView F) (window : Window F).
Implicit Types (d : Draw F) (c : Context2D F).

Lemma count_strokes_app d1 d2 :
  count_strokes (d1 ++ d2) = (count_strokes d1 + count_strokes d2)%nat.
Proof. unfold count_strokes. now rewrite filter_app, length_app. Qed.

Lemma count_fills_app d1 d2 :
  count_fills (d1 ++ d2) = (count_fills d1 + count_fills d2)%nat.
Proof. unfold count_fills. now rewrite filter_app, length_app. Qed.

Lemma count_strokes_flat_map (A : Type) (f : A -> Draw F) (l : list A) k :
  (forall a, count_strokes (f a) = k) ->
  count_strokes (flat_map f l) = (List.length l * k)%nat.
Proof.
  intros H. induction l as [|a l IH]; simpl; [reflexivity|].
  now rewrite count_strokes_app, H, IH.
Qed.

Lemma count_fills_flat_map (A : Type) (f : A -> Draw F) (l : list A) k :
  (forall a, count_fills (f a) = k) ->
  count_fills (flat_map f l) = (List.length l * k)%nat.
Proof.
  intros H. induction l as [|a l IH]; simpl; [reflexivity|].
  now rewrite count_fills_app, H, IH.
Qed.

(** The strokes and the fills of one segment, as [redraw] draws it. *)
Lemma segment_counts (segments normals : Float32Array F) inv
    (control normals_on chords : bool) j :
  let body :=
    drawSegmentVertices_body segments normals [0; 2]%nat (Some 1%nat) 3 inv
      control normals_on chords j in
  count_strokes body =
    ((if normals_on then if control then 6 else 4 else 0) +
     (if control then 2 else 0) + (if chords then 1 else 0))%nat /\
  count_fills body = (if control then 3 else 2)%nat.
Proof. destruct control, normals_on, chords; split; reflexivity. Qed.

(** X5: the number of strokes and of fills of a redraw is fixed by the two
    counts of the mesh and the four flags, whatever the buffers hold (even
    when they are shorter than the counts announce): four strokes for each
    B-quad and, under [drawVertices], four fills for each B-quad and for
    each segment two marker fills, one more fill and two more strokes with
    [drawControl], two strokes for each arrow with [drawNormals], one
    stroke with [drawSegments]. *)
Theorem redraw_stroke_and_fill_counts window this m :
  meshes (appController this) = Some m ->
  let quads := bQuadVertexPositionCount m in
  let segments := stencilSegmentCount m in
  count_strokes (redraw window this) =
    (quads * 4 +
     if drawVertices this then
       segments *
       ((if drawNormals this then if drawControl this then 6 else 4 else 0) +
        (if drawControl this then 2 else 0) +
        (if drawSegments this then 1 else 0))
     else 0)%nat /\
  count_fills (redraw window this) =
    (if drawVertices this then
       quads * 4 + segments * (if drawControl this then 3 else 2)
     else 0)%nat.
Proof.
  intros Hm quads segments. rewrite (redraw_mesh window this Hm).
  rewrite !count_strokes_app, !count_fills_app.
  set (inv := devicePixelRatio window / scale (camera this)).
  rewrite (@count_strokes_flat_map _ _ _ 4%nat)
    by (intros i; destruct (drawVertices this); reflexivity).
  rewrite (@count_fills_flat_map _ _ _
             (if drawVertices this then 4 else 0)%nat)
    by (intros i; destruct (drawVertices this); reflexivity).
  rewrite length_seq. fold quads.
  destruct (drawVertices this).
  - unfold drawSegmentVertices.
    rewrite (@count_strokes_flat_map _ _ _ _
               (fun j => proj1 (segment_counts _ _ _ _ _ _ j))).
    rewrite (@count_fills_flat_map _ _ _ _
               (fun j => proj2 (segment_counts _ _ _ _ _ _ j))).
    rewrite length_seq. fold segments.
    change (count_strokes (redraw_setup window this)) with 0%nat.
    change (count_fills (redraw_setup window this)) with 0%nat.
    change (count_strokes [Restore]) with 0%nat.
    change (count_fills [@Restore F]) with 0%nat.
    split; lia.
  - change (count_strokes (redraw_setup window this)) with 0%nat.
    change (count_fills (redraw_setup window this)) with 0%nat.
    change (count_strokes [@Restore F]) with 0%nat.
    change (count_fills [@Restore F]) with 0%nat.
    change (count_strokes (@nil (CanvasOp F))) with 0%nat.
    change (count_fills (@nil (CanvasOp F))) with 0%nat.
    split; lia.
Qed.

End Counting.

(** ** Styles, and the scoping of the drawing state *)

Section Styles.

Context (F : Type) {JSN : JSNumber F}.

Local Open Scope js_scope.

Implicit Types (this : MeshDebuggerView F) (window : Window F).
Implicit Types (d : Draw F) (c : Context2D F).

Ltac styles_by_run :=
  repeat (apply Forall_cons; [simpl; tauto|]); apply Forall_nil.

Lemma redraw_styles window this (op : CanvasOp F) :
  In op (redraw window this) ->
  match op with
  | SetStrokeStyle s =>
      In s [ CURVE_STROKE_STYLE; LIGHT_STROKE_STYLE;
             NORMAL_STROKE_STYLES edge;
             SEGMENT_CONTROL_POINT_HULL_STROKE_STYLE;
             SEGMENT_CONTROL_POINT_STROKE_STYLE;
             SEGMENT_LINE_STROKE_STYLE ]
  | SetFillStyle s =>
      In s [ SEGMENT_POINT_FILL_STYLE; SEGMENT_CONTROL_POINT_FILL_STYLE ]
  | _ => True
  end.
Proof.
  revert op. apply Forall_forall.
  destruct (meshes (appController this)) as [m|] eqn:Hm.
  - rewrite (redraw_mesh window this Hm).
    apply Forall_app; split; [unfold redraw_setup; styles_by_run|].
    apply Forall_app; split.
    { apply Forall_flat_map, Forall_forall. intros i _.
      destruct (drawVertices this); unfold redraw_bQuad; simpl app;
        styles_by_run. }
    apply Forall_app; split; [|styles_by_run].
    destruct (drawVertices this); [|apply Forall_nil].
    unfold drawSegmentVertices.
    apply Forall_flat_map, Forall_forall. intros j _.
    destruct (drawControl this), (drawNormals this), (drawSegments this);
      unfold drawSegmentVertices_body; simpl app; styles_by_run.
  - rewrite (redraw_no_mesh window this Hm). apply Forall_nil.
Qed.

(** X6: for every mesh and every overlay state, [redraw] never sets the
    stroke style of straight B-quad edges ([LINE_STROKE_STYLE]) nor the one
    of B-vertex normals: the only stroke styles it writes are the curve, the
    light, the edge-normal, the hull, the control-point and the segment-line
    styles, and the only fill styles the two segment marker fills. *)
Theorem redraw_never_uses_line_or_bVertex_style window this :
  ~ In (SetStrokeStyle LINE_STROKE_STYLE) (redraw window this) /\
  ~ In (SetStrokeStyle (NORMAL_STROKE_STYLES bVertex))
       (redraw window this) /\
  forall op, In op (redraw window this) ->
    match op with
    | SetStrokeStyle s =>
        In s [ CURVE_STROKE_STYLE; LIGHT_STROKE_STYLE;
               NORMAL_STROKE_STYLES edge;
               SEGMENT_CONTROL_POINT_HULL_STROKE_STYLE;
               SEGMENT_CONTROL_POINT_STROKE_STYLE;
               SEGMENT_LINE_STROKE_STYLE ]
    | SetFillStyle s =>
        In s [ SEGMENT_POINT_FILL_STYLE; SEGMENT_CONTROL_POINT_FILL_STYLE ]
    | _ => True
    end.
Proof.
  repeat split.
  - intros H. apply redraw_styles in H. simpl in H.
    repeat (destruct H as [H|H]; [discriminate H|]). exact H.
  - intros H. apply redraw_styles in H. simpl in H.
    repeat (destruct H as [H|H]; [discriminate H|]). exact H.
  - apply redraw_styles.
Qed.

(** A view whose [drawSegments] is off never sets the segment-line
    style. *)
Lemma redraw_no_chord window this :
  drawSegments this = false ->
  ~ In (SetStrokeStyle SEGMENT_LINE_STROKE_STYLE) (redraw window this).
Proof.
  intros Hs H.
  destruct (meshes (appController this)) as [m|] eqn:Hm.
  - rewrite (redraw_mesh window this Hm), Hs in H.
    repeat (apply in_app_or in H; destruct H as [H|H]).
    + simpl in H. repeat (destruct H as [H|H]; [discriminate H|]). exact H.
    + apply in_flat_map in H. destruct H as (i & _ & H).
      destruct (drawVertices this); simpl in H;
        repeat (destruct H as [H|H]; [discriminate H|]); exact H.
    + destruct (drawVertices this); [|exact H].
      apply in_flat_map in H. destruct H as (j & _ & H).
      destruct (drawControl this), (drawNormals this); simpl in H;
        repeat (destruct H as [H|H]; [discriminate H|]); exact H.
    + simpl in H. destruct H as [H|H]; [discriminate H|exact H].
  - now rewrite (redraw_no_mesh window this Hm) in H.
Qed.

(** X7: a view created by the class and driven by key presses only never
    draws the raw segment lines: [drawSegments] starts off and no key turns
    it on, so no redraw ever sets the segment-line stroke style. *)
Theorem raw_segment_lines_unreachable window
    (cam : OrthographicCamera F) (app : MeshDebuggerAppController F)
    (cv : HTMLCanvasElement F) (keys : list string) :
  ~ In (SetStrokeStyle SEGMENT_LINE_STROKE_STYLE)
       (redraw window (pressAll (initial_view cam app cv) keys)).
Proof.
  apply redraw_no_chord.
  now destruct (pressAll_keeps_rest (initial_view cam app cv) keys)
    as (-> & _).
Qed.

Lemma neutral_app d1 d2 :
  (forall c, drawingState (run c d1) = drawingState c /\
             stateStack (run c d1) = stateStack c) ->
  (forall c, drawingState (run c d2) = drawingState c /\
             stateStack (run c d2) = stateStack c) ->
  forall c, drawingState (run c (d1 ++ d2)) = drawingState c /\
            stateStack (run c (d1 ++ d2)) = stateStack c.
Proof.
  intros H1 H2 c. rewrite run_app.
  destruct (H2 (run c d1)) as [-> ->]. apply H1.
Qed.

Lemma neutral_flat_map (A : Type) (f : A -> Draw F) (l : list A) :
  (forall a c, drawingState (run c (f a)) = drawingState c /\
               stateStack (run c (f a)) = stateStack c) ->
  forall c, drawingState (run c (flat_map f l)) = drawingState c /\
            stateStack (run c (flat_map f l)) = stateStack c.
Proof.
  intros H. induction l as [|a l IH]; simpl.
  - intros c. split; reflexivity.
  - apply neutral_app; auto.
Qed.

(** X8: the segment pass writes nothing that outlives it: on any context,
    even one with nothing saved, [drawSegmentVertices] ends in the drawing
    state (styles, line width, dash list) and with the stack of saved
    states that it started from, for every count, layout and choice of
    toggles. *)
Theorem drawSegmentVertices_leaves_state (segments normals : Float32Array F)
    segmentCount endpointOffsets controlPointOffset segmentSize inv
    (control normals_on chords : bool) c :
  let d :=
    drawSegmentVertices segments normals segmentCount endpointOffsets
      controlPointOffset segmentSize inv control normals_on chords in
  drawingState (run c d) = drawingState c /\
  stateStack (run c d) = stateStack c.
Proof.
  revert c. apply neutral_flat_map. intros j [s st p pt].
  destruct control, normals_on, chords, controlPointOffset as [o|];
    split; reflexivity.
Qed.

Lemma strokeStyle_of_last (state : list (CanvasOp F)) style :
  strokeStyle_of (state ++ [SetStrokeStyle style]) = Some style.
Proof.
  induction state as [|op state IH]; simpl; [reflexivity|].
  now rewrite IH.
Qed.

Lemma redraw_bQuad_state (positions : Float32Array F) inv drawVertices i c :
  let c' := run c (redraw_bQuad positions inv drawVertices i) in
  stateStack c' = stateStack c /\
  strokeStyle_of (drawingState c') = Some LIGHT_STROKE_STYLE.
Proof.
  destruct c as [s st p pt].
  destruct drawVertices; simpl; (split; [reflexivity|]);
    apply strokeStyle_of_last.
Qed.

(** X9: the B-quad loop, unlike the segment pass, writes the stroke style
    outside any save and restore of its own: after one B-quad or more, the
    stack of saved states is as before and the stroke style in force is the
    light one, whatever it was on entry. *)
Theorem bQuad_pass_leaves_light_stroke_style
    (positions : Float32Array F) inv drawVertices (count : nat) c :
  (0 < count)%nat ->
  let c' :=
    run c (flat_map (redraw_bQuad positions inv drawVertices)
             (seq 0 count)) in
  stateStack c' = stateStack c /\
  strokeStyle_of (drawingState c') = Some LIGHT_STROKE_STYLE.
Proof.
  intros Hpos. revert c.
  induction count as [|n IH]; [lia|]. intros c.
  rewrite seq_S, flat_map_app, run_app. simpl flat_map.
  rewrite app_nil_r.
  destruct (redraw_bQuad_state positions inv drawVertices n
              (run c (flat_map (redraw_bQuad positions inv drawVertices)
                        (seq 0 n)))) as [Hst Hstyle].
  cbv zeta. rewrite Hst. split; [|exact Hstyle].
  destruct n as [|n]; [reflexivity|].
  apply IH. lia.
Qed.

(** X10: what a redraw paints depends on the context through the drawing
    state on entry only: neither a path left open by earlier code nor the
    stack of saved states nor what was painted before changes the frame. *)
Theorem redraw_frame_ignores_leftovers window this c1 c2 :
  drawingState c1 = drawingState c2 ->
  frame c1 (redraw window this) = frame c2 (redraw window this).
Proof.
  intros H. destruct (redraw_restores window this) as [Hscoped _].
  rewrite !frame_scoped by exact Hscoped. now rewrite H.
Qed.

End Styles.

(** ** The layout of the buffers *)

Section Layout.

Context (F : Type) {JSN : JSNumber F}.

Local Open Scope js_scope.

Lemma nth_error_flatten_points (points : list (vec2 F)) (i : nat) :
  nth_error (flatten_points points) (i * 2) =
    option_map (@at0 F) (nth_error points i) /\
  nth_error (flatten_points points) (i * 2 + 1) =
    option_map (@at1 F) (nth_error points i).
Proof.
  revert i. induction points as [|p points IH]; intros i.
  - simpl. now rewrite !nth_error_nil.
  - destruct i as [|i]; [split; reflexivity|]. apply (IH i).
Qed.

Lemma nth_error_concat_uniform (A : Type) (records : list (list A))
    (size j o : nat) :
  Forall (fun r => List.length r = size) records ->
  (o < size)%nat ->
  nth_error (List.concat records) (j * size + o) =
    match nth_error records j with
    | Some r => nth_error r o
    | None => None
    end.
Proof.
  intros Hall Ho. revert j.
  induction Hall as [|r records Hr Hall IH]; intros j.
  - simpl. now rewrite !nth_error_nil.
  - destruct j as [|j]; simpl.
    + apply nth_error_app1. lia.
    + rewrite nth_error_app2 by lia.
      replace (size + j * size + o - List.length r)%nat
        with (j * size + o)%nat by lia.
      apply IH.
Qed.

(** The point read at index [index] of the points that a buffer was laid
    out from. *)
Lemma clone_flattened (points : list (vec2 F)) (index : nat) :
  vec2_clone (elem (flatten_points points) (Some (index * 2 + 0)%nat))
             (elem (flatten_points points) (Some (index * 2 + 1)%nat)) =
    match nth_error points index with
    | Some p => stored p
    | None => {| at0 := NaN; at1 := NaN |}
    end.
Proof.
  destruct (nth_error_flatten_points points index) as [H0 H1].
  unfold elem. rewrite Nat.add_0_r, H0, H1.
  destruct (nth_error points index); reflexivity.
Qed.

(** X11: [getPosition] decodes the layout of six points to a B-quad: on a
    buffer laid out from a list of B-quads, six points each, it returns
    point [k] of B-quad [i] as a [vec2] stores it; for a B-quad index past
    the last record it returns the point (NaN, NaN) instead of failing. *)
Theorem getPosition_decodes_layout (quads : list (list (vec2 F)))
    (i k : nat) :
  Forall (fun quad => List.length quad = 6%nat) quads ->
  (k < 6)%nat ->
  getPosition (flatten_points (List.concat quads)) i k =
    match nth_error quads i with
    | Some quad =>
        match nth_error quad k with
        | Some p => stored p
        | None => {| at0 := NaN; at1 := NaN |}
        end
    | None => {| at0 := NaN; at1 := NaN |}
    end.
Proof.
  intros Hall Hk. unfold getPosition. rewrite clone_flattened.
  rewrite (nth_error_concat_uniform i Hall Hk).
  destruct (nth_error quads i); reflexivity.
Qed.

(** X12: [drawSegmentVertices] reads a segment as a record of
    [segmentSize] points: on a buffer laid out from a list of such records,
    the point at slot [offset] of segment [j] is point [offset] of record
    [j] as a [vec2] stores it, and the point (NaN, NaN) past the last
    record. *)
Theorem segmentPoint_decodes_layout (records : list (list (vec2 F)))
    (segmentSize j offset : nat) :
  Forall (fun r => List.length r = segmentSize) records ->
  (offset < segmentSize)%nat ->
  segmentPoint (flatten_points (List.concat records)) (segmentSize * 2 * j)
    (Some offset) =
    match nth_error records j with
    | Some r =>
        match nth_error r offset with
        | Some p => stored p
        | None => {| at0 := NaN; at1 := NaN |}
        end
    | None => {| at0 := NaN; at1 := NaN |}
    end.
Proof.
  intros Hall Ho. unfold segmentPoint. simpl option_map.
  replace (segmentSize * 2 * j + offset * 2 + 0)%nat
    with ((j * segmentSize + offset) * 2 + 0)%nat by lia.
  replace (segmentSize * 2 * j + offset * 2 + 1)%nat
    with ((j * segmentSize + offset) * 2 + 1)%nat by lia.
  rewrite clone_flattened.
  rewrite (nth_error_concat_uniform j Hall Ho).
  destruct (nth_error records j); reflexivity.
Qed.

Lemma getPosition_past_end (positions : Float32Array F) (i k : nat) :
  (List.length positions <= i * 12)%nat ->
  getPosition positions i k = {| at0 := NaN; at1 := NaN |}.
Proof.
  intros H. unfold getPosition, elem.
  rewrite !(proj2 (nth_error_None _ _)) by lia. reflexivity.
Qed.

(** X13: a B-quad count larger than the buffer holds is not an error for
    [redraw]: for a B-quad that lies past the end of the buffer the turn of
    the loop issues the trace it issues on an empty buffer, operation for
    operation (four strokes, and four fills under [drawVertices]), and every
    point it hands to the surface is (NaN, -NaN). *)
Theorem bQuad_past_end_drawn_at_NaN (positions : Float32Array F) inv
    (drawVertices : bool) (i : nat) :
  (List.length positions <= i * 12)%nat ->
  let turn := redraw_bQuad positions inv drawVertices i in
  turn = redraw_bQuad [] inv drawVertices 0 /\
  count_strokes turn = 4%nat /\
  count_fills turn = (if drawVertices then 4 else 0)%nat /\
  List.length (trace_points turn) =
    (if drawVertices then 18 else 10)%nat /\
  forall q, In q (trace_points turn) -> q = (NaN, - NaN).
Proof.
  intros Hlen turn.
  assert (E : turn = redraw_bQuad [] inv drawVertices 0).
  { unfold turn, redraw_bQuad, bQuadCornerDots.
    rewrite !(fun k => getPosition_past_end positions i k Hlen).
    reflexivity. }
  split; [exact E|]. rewrite E.
  repeat split; try (destruct drawVertices; reflexivity).
  intros q Hq.
  destruct drawVertices; simpl in Hq;
    repeat (destruct Hq as [<-|Hq]; [reflexivity|]); destruct Hq.
Qed.

End Layout.

(** ** The sizes that a redraw sets *)

Section Sizes.

Context (F : Type) {JSN : JSNumber F}.

Local Open Scope js_scope.

Ltac sized :=
  repeat (apply Forall_cons; [simpl; tauto|]); apply Forall_nil.

(** X16: every size that [redraw] sets is derived from
    [invScaleFactor = devicePixelRatio / camera.scale], for every mesh and
    overlay state: each line width is [invScaleFactor] itself or times a
    stroke width, each arc is a full circle from 0 to [2 * Math.PI] whose
    radius is [POINT_RADIUS] or [SEGMENT_POINT_RADIUS] times
    [invScaleFactor], and each dash list is two dashes of twice
    [invScaleFactor]; [redraw] sets no size that does not follow the
    zoom. *)
Theorem redraw_sizes_follow_invScaleFactor (window : Window F)
    (this : MeshDebuggerView F) (op : CanvasOp F) :
  In op (redraw window this) ->
  sized_by (devicePixelRatio window / scale (camera this)) op.
Proof.
  revert op. apply Forall_forall.
  destruct (meshes (appController this)) as [m|] eqn:Hm.
  - rewrite (redraw_mesh window this Hm).
    set (inv := devicePixelRatio window / scale (camera this)).
    apply Forall_app; split; [unfold redraw_setup; fold inv; sized|].
    apply Forall_app; split.
    { apply Forall_flat_map, Forall_forall. intros i _.
      destruct (drawVertices this); unfold redraw_bQuad; simpl app;
        sized. }
    apply Forall_app; split; [|sized].
    destruct (drawVertices this); [|apply Forall_nil].
    unfold drawSegmentVertices.
    apply Forall_flat_map, Forall_forall. intros j _.
    destruct (drawControl this), (drawNormals this), (drawSegments this);
      unfold drawSegmentVertices_body; simpl app; sized.
  - rewrite (redraw_no_mesh window this Hm). apply Forall_nil.
Qed.

End Sizes.

(** ** The cursors of [getNormals] *)

Section NormalCursors.

Context (F : Type).

Import Normals.

Local Open Scope nat_scope.

(** The key that [getNormals] computes is the property whose name is the
    string that the source builds. *)
Lemma key_of_name (side : Side) (isCurve : bool) :
  key_name (key_of side isCurve) =
    (side_name side ++ (if isCurve then "Curve" else "Line"))%string.
Proof. destruct side, isCurve; reflexivity. Qed.

Lemma Key_eqb_refl (k : Key) : Key_eqb k k = true.
Proof. destruct k; reflexivity. Qed.

(** X17: [getNormals] keeps one cursor for each of the four keys: [count]
    calls in a row for the same side and kind return the [count] pairs of
    normals that follow the cursor of that key, in order ([undefined] past
    the end of the array), leave that cursor advanced by [count], and leave
    the cursors of the three other keys as they were. *)
Theorem getNormals_reads_consecutive_pairs (count : nat)
    (normals : NormalsTable (list F)) (normalIndices : NormalsTable nat)
    (isCurve : bool) (side : Side) :
  let key := key_of side isCurve in
  let start := normalIndices key in
  let result := getNormals_times count normals normalIndices isCurve side in
  snd result =
    map (fun n =>
           {| left := nth_error (normals key) ((start + n) * 2 + 0);
              right := nth_error (normals key) ((start + n) * 2 + 1) |})
        (seq 0 count) /\
  forall k,
    fst result k =
      if Key_eqb k key then (start + count)%nat else normalIndices k.
Proof.
  revert normalIndices. induction count as [|n IH]; intros normalIndices.
  - simpl. split; [reflexivity|]. intros k.
    destruct (Key_eqb k (key_of side isCurve)) eqn:E; [|reflexivity].
    destruct k, side, isCurve; try discriminate E; now rewrite Nat.add_0_r.
  - cbv zeta. simpl getNormals_times.
    set (key := key_of side isCurve).
    set (start := normalIndices key).
    specialize (IH (assign normalIndices key (start + 1)%nat)).
    cbv zeta in IH. fold key in IH.
    destruct (getNormals_times n normals
                (assign normalIndices key (start + 1)%nat) isCurve side)
      as [final pairs].
    simpl in IH. destruct IH as [Hpairs Hfinal].
    assert (Hcur : assign normalIndices key (start + 1)%nat key =
                   (start + 1)%nat).
    { unfold assign. now rewrite Key_eqb_refl. }
    rewrite Hcur in Hpairs, Hfinal. simpl. split.
    + f_equal.
      * now rewrite !Nat.add_0_r.
      * rewrite Hpairs, <- seq_shift, map_map.
        apply map_ext. intros a.
        now replace (start + 1 + a) with (start + S a) by lia.
    + intros k. rewrite Hfinal. unfold assign.
      destruct (Key_eqb k key); [lia|reflexivity].
Qed.

End NormalCursors.

(** ** The further statements at sample inputs *)

Lemma toggles_follow_parity_witness :
  let this := Sample.view_of None in
  let keys := ["c"; "x"; "c"; "n"]%string in
  drawControl (pressAll this keys) =
    xorb (drawControl this)
         (Nat.odd (count_occ string_dec keys "c"%string)) /\
  drawNormals (pressAll this keys) =
    xorb (drawNormals this)
         (Nat.odd (count_occ string_dec keys "n"%string)) /\
  drawVertices (pressAll this keys) =
    xorb (drawVertices this)
         (Nat.odd (count_occ string_dec keys "v"%string)).
Proof.
  apply (@toggles_follow_parity PrimFloat.float (Sample.view_of None)
           ["c"; "x"; "c"; "n"]%string).
  intros H. simpl in H.
  repeat (destruct H as [H|H]; [discriminate H|]). exact H.
Defined.

Lemma keys_invisible_without_vertices_witness :
  let this := SampleLayout.hidden_vertices_view in
  redraw Sample.sample_window (pressAll this ["c"; "n"; "x"]%string) =
    redraw Sample.sample_window this.
Proof.
  apply (@keys_invisible_without_vertices PrimFloat.float _ Sample.sample_window
           SampleLayout.hidden_vertices_view ["c"; "n"; "x"]%string).
  - reflexivity.
  - intros H. simpl in H.
    repeat (destruct H as [H|H]; [discriminate H|]). exact H.
  - intros H. simpl in H.
    repeat (destruct H as [H|H]; [discriminate H|]). exact H.
Defined.

Lemma redraw_stroke_and_fill_counts_witness :
  let this := Sample.view_of (Some Sample.segment_mesh) in
  count_strokes (redraw Sample.sample_window this) = 8%nat /\
  count_fills (redraw Sample.sample_window this) = 3%nat.
Proof.
  exact (@redraw_stroke_and_fill_counts PrimFloat.float _ Sample.sample_window
           (Sample.view_of (Some Sample.segment_mesh))
           Sample.segment_mesh eq_refl).
Defined.

Lemma bQuad_pass_leaves_light_stroke_style_witness :
  let c' :=
    run SampleLayout.used_context
      (flat_map
         (redraw_bQuad Sample.straight_quad_positions (Sample.num 1) true)
         (seq 0 1)) in
  stateStack c' = stateStack SampleLayout.used_context /\
  strokeStyle_of (drawingState c') = Some LIGHT_STROKE_STYLE.
Proof.
  apply (@bQuad_pass_leaves_light_stroke_style PrimFloat.float _
           Sample.straight_quad_positions (Sample.num 1) true 1%nat
           SampleLayout.used_context).
  apply Nat.lt_0_1.
Defined.

Lemma redraw_frame_ignores_leftovers_witness :
  let this := Sample.view_of (Some Sample.segment_mesh) in
  frame SampleLayout.clean_context (redraw Sample.sample_window this) =
    frame SampleLayout.used_context (redraw Sample.sample_window this).
Proof.
  apply (@redraw_frame_ignores_leftovers PrimFloat.float _ Sample.sample_window
           (Sample.view_of (Some Sample.segment_mesh))
           SampleLayout.clean_context SampleLayout.used_context).
  reflexivity.
Defined.

Lemma getPosition_decodes_layout_witness :
  getPosition (flatten_points (List.concat SampleLayout.quads)) 0 2 =
    stored (SampleLayout.pt 10 10).
Proof.
  apply (@getPosition_decodes_layout PrimFloat.float _ SampleLayout.quads 0%nat
           2%nat).
  - repeat constructor.
  - repeat constructor.
Defined.

Lemma segmentPoint_decodes_layout_witness :
  segmentPoint (flatten_points (List.concat SampleLayout.records))
    (3 * 2 * 0) (Some 2%nat) =
    stored (SampleLayout.pt 10 0).
Proof.
  apply (@segmentPoint_decodes_layout PrimFloat.float _
           SampleLayout.records 3%nat 0%nat 2%nat).
  - repeat constructor.
  - repeat constructor.
Defined.

Lemma bQuad_past_end_drawn_at_NaN_witness :
  let turn :=
    redraw_bQuad [Sample.num 1; Sample.num 2] (Sample.num 1) true 1 in
  turn = redraw_bQuad [] (Sample.num 1) true 0 /\
  count_strokes turn = 4%nat /\
  count_fills turn = 4%nat /\
  List.length (trace_points turn) = 18%nat /\
  forall q, In q (trace_points turn) -> q = (NaN, - NaN).
Proof.
  apply (@bQuad_past_end_drawn_at_NaN PrimFloat.float _
           [Sample.num 1; Sample.num 2] (Sample.num 1) true 1%nat).
  simpl. lia.
Defined.

(** ** The transforms under which a redraw paints *)

Section Transforms.

Context (F : Type) {JSN : JSNumber F}.

Local Open Scope js_scope.

Implicit Types (d : Draw F) (c : Context2D F).

Lemma keeps_transforms_nil : keeps_transforms (@nil (CanvasOp F)).
Proof.
  intros c. repeat split. exists []. split.
  - simpl. now rewrite app_nil_r.
  - constructor.
Qed.

Lemma keeps_transforms_app d1 d2 :
  keeps_transforms d1 -> keeps_transforms d2 -> keeps_transforms (d1 ++ d2).
Proof.
  intros H1 H2 c. rewrite run_app.
  destruct (H1 c) as (Hs1 & Hk1 & l1 & Hp1 & Hl1).
  destruct (H2 (run c d1)) as (Hs2 & Hk2 & l2 & Hp2 & Hl2).
  repeat split; [congruence | congruence |].
  exists (l1 ++ l2). split.
  - now rewrite Hp2, Hp1, app_assoc.
  - apply Forall_app. split; [exact Hl1|].
    eapply Forall_impl; [|exact Hl2].
    intros [op path state] [Hop H]. split; [exact Hop|]. now rewrite H.
Qed.

Lemma keeps_transforms_flat_map (A : Type) (f : A -> Draw F) (l : list A) :
  (forall a, keeps_transforms (f a)) -> keeps_transforms (flat_map f l).
Proof.
  intros H. induction l as [|a l IH]; simpl.
  - apply keeps_transforms_nil.
  - apply keeps_transforms_app; auto.
Qed.

Ltac same_transforms :=
  unfold transforms_of; rewrite ?filter_app; simpl; rewrite ?app_nil_r;
  reflexivity.

Ltac keeps_by_run :=
  intros [s st pth pt]; simpl; rewrite <- ?app_assoc; simpl;
  split; [same_transforms|]; split; [reflexivity|];
  eexists; split; [reflexivity|];
  repeat (apply Forall_cons; [split; [auto|same_transforms]|]);
  apply Forall_nil.

Lemma keeps_transforms_bQuad (positions : Float32Array F) inv
    (drawVertices : bool) i :
  keeps_transforms (redraw_bQuad positions inv drawVertices i).
Proof. destruct drawVertices; keeps_by_run. Qed.

Lemma keeps_transforms_segment (segments normals : Float32Array F)
    endpointOffsets controlPointOffset segmentSize inv
    (control normals_on chords : bool) j :
  keeps_transforms
    (drawSegmentVertices_body segments normals endpointOffsets
       controlPointOffset segmentSize inv control normals_on chords j).
Proof.
  destruct control, normals_on, chords, controlPointOffset as [o|];
    keeps_by_run.
Qed.

Lemma painted_restore c : painted (exec c Restore) = painted c.
Proof. simpl. destruct (stateStack c); reflexivity. Qed.

(** X18: on any context, the first paint of a redraw is the [clearRect],
    made under the transforms that the context had on entry, and every
    stroke and fill after it is made under exactly those transforms
    followed by [translate(translation[0], height - translation[1])] and
    then [scale(scale, scale)]: no drawing function applies a transform of
    its own, and none paints outside the camera transform. *)
Theorem redraw_paints_under_camera_transform (window : Window F)
    (this : MeshDebuggerView F) (m : PathfinderMeshData F)
    (c : Context2D F) :
  meshes (appController this) = Some m ->
  exists paints,
    frame c (redraw window this) =
      Painted (ClearRect (lit 0) (lit 0) (width (canvas this))
                 (height (canvas this))) [] (drawingState c) :: paints /\
    forall op path state,
      In (Painted op path state) paints ->
      (op = Stroke \/ op = Fill) /\
      transforms_of state =
        transforms_of (drawingState c) ++
        [ Translate (at0 (translation (camera this)))
            (height (canvas this) - at1 (translation (camera this)));
          Scale (scale (camera this)) (scale (camera this)) ].
Proof.
  intros Hm. rewrite (redraw_mesh window this Hm).
  set (inv := devicePixelRatio window / scale (camera this)).
  set (quads := flat_map _ _).
  set (segs := if drawVertices this then _ else _).
  replace (redraw_setup window this ++ quads ++ segs ++ [Restore])
    with (redraw_setup window this ++ (quads ++ segs) ++ [Restore])
    by now rewrite <- !app_assoc.
  assert (Hmid : keeps_transforms (quads ++ segs)).
  { apply keeps_transforms_app.
    - apply keeps_transforms_flat_map. intros i.
      apply keeps_transforms_bQuad.
    - unfold segs. destruct (drawVertices this).
      + apply keeps_transforms_flat_map. intros j.
        apply keeps_transforms_segment.
      + apply keeps_transforms_nil. }
  unfold frame.
  rewrite (run_app c (redraw_setup window this)
             ((quads ++ segs) ++ [Restore])).
  rewrite (run_app _ (quads ++ segs) [Restore]).
  destruct c as [s0 st pth pt].
  set (c0 := run _ (redraw_setup window this)).
  destruct (Hmid c0) as (_ & _ & paints & Hp & Hall).
  exists paints. split.
  - change (run (run c0 (quads ++ segs)) [Restore])
      with (exec (run c0 (quads ++ segs)) Restore).
    rewrite painted_restore, Hp. unfold c0, redraw_setup. simpl.
    rewrite <- app_assoc, skipn_app, Nat.sub_diag, skipn_all. reflexivity.
  - intros op path state Hin.
    rewrite Forall_forall in Hall. specialize (Hall _ Hin). simpl in Hall.
    destruct Hall as [Hop Hall]. split; [exact Hop|].
    rewrite Hall. unfold c0, redraw_setup, transforms_of. simpl.
    rewrite !filter_app. simpl. rewrite !app_nil_r, <- !app_assoc.
    reflexivity.
Qed.

End Transforms.

(** ** Segments without a control-point slot *)

(** X19: when [drawSegmentVertices] is given no control-point slot
    ([controlPointOffset] is null), the [drawControl] toggle changes nothing
    of what it draws: no hull, no control-point marker and no third arrow
    is drawn, whatever the buffers hold. *)
Theorem no_control_slot_ignores_drawControl (F : Type) (JSN : JSNumber F)
    (segments normals : Float32Array F) (segmentCount : nat)
    (endpointOffsets : list nat) (segmentSize : nat) (inv : F)
    (normals_on chords : bool) :
  drawSegmentVertices segments normals segmentCount endpointOffsets None
    segmentSize inv true normals_on chords =
  drawSegmentVertices segments normals segmentCount endpointOffsets None
    segmentSize inv false normals_on chords /\
  count_fills
    (drawSegmentVertices segments normals segmentCount endpointOffsets None
       segmentSize inv true normals_on chords) = (segmentCount * 2)%nat.
Proof.
  split.
  - unfold drawSegmentVertices. apply flat_map_ext. intros j.
    destruct normals_on, chords; reflexivity.
  - unfold drawSegmentVertices.
    rewrite (@count_fills_flat_map _ _ _ _ 2%nat), length_seq;
      [reflexivity|].
    intros j. destruct normals_on, chords; reflexivity.
Qed.

(** ** The statements in binary64 arithmetic, at sample inputs *)

Section InDoubles.

Import PrimFloat.

Local Open Scope float_scope.

(** The arithmetic at work: the shaft end is stored in binary32, so that
    for [invScaleFactor] 0.1 the abscissa 0.1 * 14 = 1.4000000000000001 is
    kept as 1.399999976158142, and a shaft too long for binary32 ends at an
    infinity; a quotient by zero is an infinity or NaN, and
    [1 / 49 * 49] is 0.9999999999999999. *)
Lemma binary32_stores_and_quotients :
  0x1.999999999999ap-4 * 14 = 0x1.6666666666667p+0 /\
  at0 (@normalEndpoint float float_JSNumber (mkvec2 0 0) (mkvec2 1 0)
         0x1.999999999999ap-4 edge) = 0x1.666666p+0 /\
  at0 (@normalEndpoint float float_JSNumber (mkvec2 0 0) (mkvec2 1 0)
         0x1p+127 edge) = infinity /\
  1 / 0 = infinity /\ -1 / 0 = neg_infinity /\ 0 / 0 = nan /\
  1 / 49 * 49 = 0x1.fffffffffffffp-1.
Proof. repeat split. Qed.

(** C7 as the claim has it fails: with [Math.cos] and [Math.sin] rounding
    to nearest, the first wing of the arrow at (0,0) along (1,0) is drawn
    to (10.535898384862245, 1.9999999999999998), and this ordinate is a
    double below 2, where the shaft end plus 4 times the direction turned
    by 5 pi / 6 has the ordinate 0 + 4 sin (5 pi / 6) = 2. *)
Lemma edge_normal_wing_not_exact :
  let arrow :=
    @drawNormal float float_JSNumber (mkvec2 0 0) (mkvec2 1 0) 1 edge in
  nth 5 arrow Save = LineTo 0x1.5126145e9ecd5p+3 0x1.fffffffffffffp+0 /\
  ltb 0x1.fffffffffffffp+0 2 = true /\
  0x1.fffffffffffffp+0 <> 2.
Proof.
  repeat split.
  intros H. apply (f_equal (fun y => ltb y 2)) in H.
  vm_compute in H. discriminate H.
Qed.

Lemma edge_normal_arrow_in_doubles_witness :
  @drawNormal float float_JSNumber (mkvec2 0 0) (mkvec2 1 0) 1 edge =
    [ Save; SetStrokeStyle "#cc5500"; BeginPath;
      MoveTo 0 (-0);
      LineTo 14 (-0);
      LineTo 0x1.5126145e9ecd5p+3 0x1.fffffffffffffp+0;
      Stroke; BeginPath;
      MoveTo 14 (-0);
      LineTo 0x1.5126145e9ecd5p+3 (-0x1.fffffffffffffp+0);
      Stroke; Restore ].
Proof.
  exact (proj2 (edge_normal_arrow_in_doubles IEEE.table_cos IEEE.table_sin)
               eq_refl eq_refl).
Defined.


End InDoubles.

Lemma redraw_paints_under_camera_transform_witness :
  let this := Sample.view_of (Some Sample.segment_mesh) in
  let c := SampleLayout.used_context in
  exists paints,
    frame c (redraw Sample.sample_window this) =
      Painted (ClearRect (lit 0) (lit 0) (width (canvas this))
                 (height (canvas this))) [] (drawingState c) :: paints /\
    forall op path state,
      In (Painted op path state) paints ->
      (op = Stroke \/ op = Fill) /\
      transforms_of state =
        transforms_of (drawingState c) ++
        [ Translate (at0 (translation (camera this)))
            (height (canvas this) - at1 (translation (camera this)));
          Scale (scale (camera this)) (scale (camera this)) ].
Proof.
  exact (@redraw_paints_under_camera_transform PrimFloat.float _
           Sample.sample_window
           (Sample.view_of (Some Sample.segment_mesh))
           Sample.segment_mesh SampleLayout.used_context eq_refl).
Defined.

Lemma redraw_sizes_follow_invScaleFactor_witness :
  sized_by (Sample.num 1 / Sample.num 1)
    (SetLineWidth (Sample.num 1 / Sample.num 1)).
Proof.
  apply (@redraw_sizes_follow_invScaleFactor PrimFloat.float _
           Sample.sample_window
           (Sample.view_of (Some Sample.straight_quad_mesh))).
  right; right; right; right; right. left. reflexivity.
Defined.
